(** * Browser-history backend: chunked classification job and report aggregation

    A shallow embedding of [src/browser-history/browser-history.service.ts]
    and of the [RedisService] it talks to, with the properties of the
    chunk-progress state machine and of the report aggregator proved over it.

    Conventions of the embedding.
    - A JavaScript [number] that holds a count ([totalVisits], [visits],
      category counts, [chunkSize], [history.length]) is an integer of [Z];
      the values that integer arithmetic cannot reach and that the service
      does produce ([NaN] from [parseInt], [Infinity] from a division by
      zero) are the extra constructors of [number].  The counts of the
      reports are added as doubles are: a sum beyond 2^53 is rounded
      ([round_double]).  The progress index is counted up from 0 one by one
      and its arithmetic is the one of the integers, which is the one of
      the doubles up to 2^53.
    - A string is the sequence of the bytes of its UTF-8 encoding.
    - The documents of the store are the progress string, the history
      payload, whose entries may be [null], the report, and any other JSON
      object, which is what the reply of the classifier may parse to.
      [JSON.stringify] followed by [JSON.parse] is the identity on these
      documents and is not modelled.  Where the service goes on with an
      object of another shape than the type it declares for it and does
      not stop with an error that the model can tell, the program of the
      model ends in [Untyped]: no statement speaks of what follows.
    - An [async] method is a program of the free monad [prog] over the three
      effects the service has: a Redis read, a Redis write, and the chat
      completion request to the external classifier.  [console] output is not
      an effect of interest and is left out. *)

From Stdlib Require Import ZArith Ascii.
From stdpp Require Import base option list gmap strings pretty sorting.

Local Open Scope Z_scope.

(** ** JavaScript numbers, as far as the service needs them *)

Inductive number : Type :=
| Num (z : Z)
| NaN
| Infinity
| NegInfinity.

Global Instance number_eq_dec : EqDecision number.
Proof. solve_decision. Defined.

(** [a + b] *)
Definition num_add (a b : number) : number :=
  match a, b with
  | Num x, Num y => Num (x + y)
  | NaN, _ | _, NaN => NaN
  | Infinity, NegInfinity | NegInfinity, Infinity => NaN
  | Infinity, _ | _, Infinity => Infinity
  | NegInfinity, _ | _, NegInfinity => NegInfinity
  end.

(** [a * b] *)
Definition num_mul (a b : number) : number :=
  match a, b with
  | Num x, Num y => Num (x * y)
  | NaN, _ | _, NaN => NaN
  | Infinity, Num y | Num y, Infinity =>
      if y =? 0 then NaN else if 0 <? y then Infinity else NegInfinity
  | NegInfinity, Num y | Num y, NegInfinity =>
      if y =? 0 then NaN else if 0 <? y then NegInfinity else Infinity
  | Infinity, Infinity | NegInfinity, NegInfinity => Infinity
  | Infinity, NegInfinity | NegInfinity, Infinity => NegInfinity
  end.

(** [a >= b]: every comparison with [NaN] is false. *)
Definition num_ge (a b : number) : bool :=
  match a, b with
  | NaN, _ | _, NaN => false
  | Num x, Num y => bool_decide (y ≤ x)
  | Infinity, _ => true
  | _, NegInfinity => true
  | Num _, Infinity => false
  | NegInfinity, _ => false
  end.

(** [Math.ceil(a / b)] for integers [a] and [b].  For [b <> 0] the quotient
    of the doubles is within half an ulp of the rational quotient, which for
    array lengths cannot carry a non-integer across an integer, so the
    ceiling is the exact one; a zero divisor gives [NaN] or an infinity. *)
Definition Math_ceil_div (a b : Z) : number :=
  if b =? 0 then
    if a =? 0 then NaN else if 0 <? a then Infinity else NegInfinity
  else Num (- ((- a) `div` b)).

(** [n.toString()], and [n] inside a template literal: the decimal text
    of the integer.  The numbers the service prints are progress indices and
    chunk indices, counted up from 0 one by one; the text is the one of
    JavaScript up to 2^53, where every integer is a double and is printed
    with all its digits. *)
Definition num_toString (n : number) : string :=
  match n with
  | Num z => pretty z
  | NaN => "NaN"
  | Infinity => "Infinity"
  | NegInfinity => "-Infinity"
  end.

(** The counts of a report are integers held in doubles, which have 53
    bits of precision: a sum that needs more is rounded to the nearest
    double, to the one with the even significand when two are equally near.
    [round_double z] is the double nearest to the integer [z]: [z] itself up
    to 2^53, and from there on a multiple of 2^e with a significand [q'] of
    53 bits.  (The exponent of a double ends at 2^1024, where a sum becomes
    [Infinity]; integers of that size are not counts and are left out.) *)
Definition round_double (z : Z) : Z :=
  let a := Z.abs z in
  if a <=? 2 ^ 53 then z
  else
    let e := Z.log2 a - 52 in
    let q := a `div` 2 ^ e in
    let r := a `mod` 2 ^ e in
    let half := 2 ^ (e - 1) in
    let q' :=
      if r <? half then q
      else if half <? r then q + 1
      else if Z.even q then q else q + 1 in
    Z.sgn z * (q' * 2 ^ e).

(** [a + b] on two counts. *)
Definition double_add (a b : Z) : Z := round_double (a + b).

(** ** Strings *)

(** A string is the sequence of the bytes of its UTF-8 encoding, which is
    how Redis holds it.

    The white space and the line terminators that [parseInt] skips: the six
    of ASCII, and those beyond ASCII, which are U+00A0 in two bytes and
    U+1680, U+2000 to U+200A, U+2028, U+2029, U+202F, U+205F, U+3000 and
    U+FEFF in three. *)
Definition is_whitespace (c : ascii) : bool :=
  (c =? " ")%char || (c =? "009")%char || (c =? "010")%char
  || (c =? "011")%char || (c =? "012")%char || (c =? "013")%char.

Definition is_whitespace2 (c1 c2 : ascii) : bool :=
  (c1 =? "194")%char && (c2 =? "160")%char.

Definition is_whitespace3 (c1 c2 c3 : ascii) : bool :=
  let b3 := Z.of_N (N_of_ascii c3) in
  (c1 =? "225")%char && (c2 =? "154")%char && (c3 =? "128")%char
  || (c1 =? "226")%char && (c2 =? "128")%char
     && ((128 <=? b3) && (b3 <=? 138) || (b3 =? 168) || (b3 =? 169) || (b3 =? 175))
  || (c1 =? "226")%char && (c2 =? "129")%char && (c3 =? "159")%char
  || (c1 =? "227")%char && (c2 =? "128")%char && (c3 =? "128")%char
  || (c1 =? "239")%char && (c2 =? "187")%char && (c3 =? "191")%char.

Fixpoint trim_start (s : string) : string :=
  match s with
  | EmptyString => EmptyString
  | String c1 s1 =>
      if is_whitespace c1 then trim_start s1
      else
        match s1 with
        | EmptyString => s
        | String c2 s2 =>
            if is_whitespace2 c1 c2 then trim_start s2
            else
              match s2 with
              | EmptyString => s
              | String c3 s3 =>
                  if is_whitespace3 c1 c2 c3 then trim_start s3 else s
              end
        end
  end.

Definition digit_value (c : ascii) : option Z :=
  let n := Z.of_N (N_of_ascii c) in
  if (48 <=? n) && (n <=? 57) then Some (n - 48) else None.

(** The value of the longest prefix of decimal digits, [None] when the
    string does not start with a digit. *)
Fixpoint parse_digits (s : string) (acc : option Z) : option Z :=
  match s with
  | String c s' =>
      match digit_value c with
      | Some d => parse_digits s' (Some (10 * default 0 acc + d))
      | None => acc
      end
  | EmptyString => acc
  end.

(** [parseInt(s, 10)]: white space is skipped, then a sign, then the
    digits are read as far as they go.  The value of the digits is taken as
    it is, which is what JavaScript does up to 2^53; statements that depend
    on the value of a text say so. *)
Definition parseInt (s : string) : number :=
  let s := trim_start s in
  let '(sign, s) :=
    match s with
    | String "-"%char s' => (-1, s')
    | String "+"%char s' => (1, s')
    | _ => (1, s)
    end in
  match parse_digits s None with
  | Some n => Num (sign * n)
  | None => NaN
  end.

(** [s.split(sep)] for a one-character separator. *)
Fixpoint split (sep : ascii) (s : string) : list string :=
  match s with
  | EmptyString => [EmptyString]
  | String c s' =>
      if (c =? sep)%char then EmptyString :: split sep s'
      else match split sep s' with
           | piece :: rest => String c piece :: rest
           | [] => [String c EmptyString]
           end
  end.

(** [pieces.join(sep)] *)
Fixpoint join (sep : string) (pieces : list string) : string :=
  match pieces with
  | [] => EmptyString
  | [piece] => piece
  | piece :: rest => piece +:+ sep +:+ join sep rest
  end.

(** ** Arrays *)

(** The clamping of one bound of [Array.prototype.slice]: [NaN] counts as 0,
    a negative bound counts from the end. *)
Definition relative_index (len : Z) (n : number) : Z :=
  match n with
  | Num z => if z <? 0 then Z.max (len + z) 0 else Z.min z len
  | NaN => 0
  | Infinity => len
  | NegInfinity => 0
  end.

(** [arr.slice(start, end)] *)
Definition slice {A} (arr : list A) (start end_ : number) : list A :=
  let len := Z.of_nat (length arr) in
  let k := relative_index len start in
  let final := relative_index len end_ in
  take (Z.to_nat (final - k)) (drop (Z.to_nat k) arr).

(** [arr.sort(comparefn)].  The sort of ECMAScript 2019 is stable, and for a
    comparator that orders by a key the stably sorted permutation is unique
    (see [Array_sort_unique] below), so an insertion sort computes the array
    the engine returns.  Elements are inserted from the right; an element
    goes in front of the first one it does not compare greater than, which
    keeps it in front of its equals. *)
Fixpoint sort_insert {A} (comparefn : A → A → Z) (x : A) (l : list A) : list A :=
  match l with
  | [] => [x]
  | y :: l' =>
      if comparefn x y <=? 0 then x :: y :: l' else y :: sort_insert comparefn x l'
  end.

Definition Array_sort {A} (comparefn : A → A → Z) (arr : list A) : list A :=
  foldr (sort_insert comparefn) [] arr.

(** ** The data model *)

(** [DailyReport] and the shapes inside it (lines 7-26 of the service). *)
Record Site : Type := {
  url : string;
  category : string;
  visits : Z;
}.

Record CategoryFrequency : Type := {
  mf_category : string;
  frequency : Z;
}.

(** [categories] is a JavaScript object used as a map from category name to
    count.  It is kept as the list of its own properties in the order
    [Object.entries] enumerates them. *)
Record DailyReport : Type := {
  totalVisits : Z;
  categories : list (string * Z);
  mostVisitedSites : list Site;
  mostFrequentCategory : CategoryFrequency;
  mostFrequentSite : Site;
}.

Record Account : Type := {
  email : string;
  name : string;
}.

(** One entry of a stored history that is not [null]: the service reads
    [item.url] and [item.title] only, to print them.  [url] is the text that
    the template literal prints for [item.url], and [title] the text it
    prints for a title that is truthy, [None] for one that is missing or
    falsy.  The history is typed [any[]], and an entry of it may as well be
    [null]: the entries of a history are of type [option HistoryItem.t],
    with [None] for [null]. *)
Module HistoryItem.
Record t : Type := {
  url : string;
  title : option string;
}.
End HistoryItem.

Record HistoryRecord : Type := {
  account : Account;
  history : list (option HistoryItem.t);
}.

(** A JSON value as [JSON.parse] returns it.  A number is kept as the text
    of its literal, an object as the list of its properties. *)
Unset Elimination Schemes.
Inductive JSON : Type :=
| JNull
| JBool (b : bool)
| JNumber (literal : string)
| JString (s : string)
| JArray (items : list JSON)
| JObject (fields : list (string * JSON)).
Set Elimination Schemes.

(** Is the number of a literal zero?  It is when no digit of its mantissa,
    which ends at the exponent mark, is another one than 0. *)
Fixpoint literal_zero (literal : string) : bool :=
  match literal with
  | EmptyString => true
  | String c literal' =>
      if (c =? "e")%char || (c =? "E")%char then true
      else if (Z.of_N (N_of_ascii c) <? 49) || (57 <? Z.of_N (N_of_ascii c))
           then literal_zero literal'
           else false
  end.

(** What [!j] tests on a JSON value. *)
Definition JSON_truthy (j : JSON) : bool :=
  match j with
  | JNull => false
  | JBool b => b
  | JNumber literal => negb (literal_zero literal)
  | JString s => negb (String.eqb s "")
  | JArray _ | JObject _ => true
  end.

(** The documents the service keeps in Redis: the string of a progress
    counter, the payload [{account, history}] (either field may be missing,
    which [getHistory] tests), a report, and any other object: the chunk
    report that [analyzeChunk] returns is what [JSON.parse] makes of the
    reply of the classifier, and nothing makes it a [DailyReport]. *)
Inductive value : Type :=
| VString (s : string)
| VHistory (account : option Account)
    (history : option (list (option HistoryItem.t)))
| VReport (report : DailyReport)
| VObject (fields : list (string * JSON)).

(** Has an object a property of this name with a truthy value? *)
Definition has_truthy (fields : list (string * JSON)) (name : string) : bool :=
  match List.find (λ field, String.eqb field.1 name) fields with
  | Some field => JSON_truthy field.2
  | None => false
  end.

(** What [!v] tests: [null], and the empty string among the documents. *)
Definition truthy (v : option value) : bool :=
  match v with
  | None => false
  | Some (VString s) => negb (String.eqb s "")
  | Some _ => true
  end.

(** The neutral report, written out three times in the source (lines 91-97,
    190-196 and 222-228). *)
Definition neutral_report : DailyReport := {|
  totalVisits := 0;
  categories := [];
  mostVisitedSites := [];
  mostFrequentCategory := {| mf_category := "General"; frequency := 0 |};
  mostFrequentSite := {| url := ""; category := "General"; visits := 0 |};
|}.

(** ** Effects *)

Inductive error : Type :=
| Error (message : string)
| SyntaxError
| TypeError
| APIError (message : string).

(** The reply of [groq.chat.completions.create]: the promise is rejected, or
    it resolves to a completion, of which the service reads
    [choices[0]?.message?.content]. *)
Record ChatCompletion : Type := {
  choices : list (option string);
}.

Inductive groq_result : Type :=
| Rejected (e : error)
| Resolved (completion : ChatCompletion).

(** Programs over the effects of the service.  [OutOfFuel] stands for a loop
    that was cut, and [Untyped] for a call that goes on with an object of
    another shape than the type the source declares for it, where what the
    call does is JavaScript at large and not part of this model: neither is
    a JavaScript exception, and no handler catches them. *)
Inductive prog (A : Type) : Type :=
| Ret (a : A)
| Throw (e : error)
| RedisGet (key : string) (k : option value → prog A)
| RedisSet (key : string) (v : value) (k : prog A)
| GroqCreate (prompt : string) (k : groq_result → prog A)
| OutOfFuel
| Untyped.

Arguments Ret {A} a.
Arguments Throw {A} e.
Arguments RedisGet {A} key k.
Arguments RedisSet {A} key v k.
Arguments GroqCreate {A} prompt k.
Arguments OutOfFuel {A}.
Arguments Untyped {A}.

Fixpoint bind {A B} (p : prog A) (f : A → prog B) : prog B :=
  match p with
  | Ret a => f a
  | Throw e => Throw e
  | RedisGet key k => RedisGet key (λ v, bind (k v) f)
  | RedisSet key v k => RedisSet key v (bind k f)
  | GroqCreate prompt k => GroqCreate prompt (λ r, bind (k r) f)
  | OutOfFuel => OutOfFuel
  | Untyped => Untyped
  end.

Global Instance prog_ret : MRet prog := @Ret.
Global Instance prog_bind : MBind prog := λ A B f p, bind p f.

(** [try { p } catch (error) { h error }] *)
Fixpoint try_catch {A} (p : prog A) (h : error → prog A) : prog A :=
  match p with
  | Ret a => Ret a
  | Throw e => h e
  | RedisGet key k => RedisGet key (λ v, try_catch (k v) h)
  | RedisSet key v k => RedisSet key v (try_catch k h)
  | GroqCreate prompt k => GroqCreate prompt (λ r, try_catch (k r) h)
  | OutOfFuel => OutOfFuel
  | Untyped => Untyped
  end.

(** [RedisService] (src/redis/redis.service.ts): [get] gives [null] for a
    missing key, [set] overwrites. *)
Module redisService.
Definition get (key : string) : prog (option value) := RedisGet key Ret.
Definition set (key : string) (v : value) : prog unit := RedisSet key v (Ret ()).
End redisService.

(** [await this.groq.chat.completions.create(...)]: a rejection is thrown at
    the [await]. *)
Definition groq_chat_completions_create (prompt : string) : prog ChatCompletion :=
  GroqCreate prompt (λ r,
    match r with
    | Rejected e => Throw e
    | Resolved completion => Ret completion
    end).

(** *** Running a program against a store *)

Inductive event : Type :=
| EvGet (key : string)
| EvSet (key : string) (v : value)
| EvGroq (prompt : string).

Inductive outcome (A : Type) : Type :=
| Returned (a : A)
| Thrown (e : error)
| Cut
| Unmodelled.

Arguments Returned {A} a.
Arguments Thrown {A} e.
Arguments Cut {A}.
Arguments Unmodelled {A}.

(** The store is a finite map from keys to documents; the classifier is an
    oracle from the prompt to its reply.  [run] gives the outcome, the store
    at the end, and the effects in the order they happened. *)
Fixpoint run {A} (groq : string → groq_result) (p : prog A) (σ : gmap string value)
    : outcome A * gmap string value * list event :=
  match p with
  | Ret a => (Returned a, σ, [])
  | Throw e => (Thrown e, σ, [])
  | RedisGet key k =>
      let '(o, σ', tr) := run groq (k (σ !! key)) σ in (o, σ', EvGet key :: tr)
  | RedisSet key v k =>
      let '(o, σ', tr) := run groq k (<[key := v]> σ) in (o, σ', EvSet key v :: tr)
  | GroqCreate prompt k =>
      let '(o, σ', tr) := run groq (k (groq prompt)) σ in (o, σ', EvGroq prompt :: tr)
  | OutOfFuel => (Cut, σ, [])
  | Untyped => (Unmodelled, σ, [])
  end.


(** The writes among the effects. *)
Definition is_write (ev : event) : bool :=
  match ev with
  | EvSet _ _ => true
  | _ => false
  end.

Definition writes (tr : list event) : list event := List.filter is_write tr.

(** ** The service *)

(** A JavaScript [Map] with string keys: the entries in insertion order,
    each key once.  [set] on a key that is present replaces the value where
    it stands. *)
Module Map.
Section ops.
Context {V : Type}.

Fixpoint get (m : list (string * V)) (key : string) : option V :=
  match m with
  | [] => None
  | (k, v) :: m' => if String.eqb k key then Some v else get m' key
  end.

Definition has (m : list (string * V)) (key : string) : bool :=
  match get m key with
  | Some _ => true
  | None => false
  end.

Fixpoint set (m : list (string * V)) (key : string) (v : V) : list (string * V) :=
  match m with
  | [] => [(key, v)]
  | (k, v') :: m' =>
      if String.eqb k key then (k, v) :: m' else (k, v') :: set m' key v
  end.
End ops.
End Map.

(** A plain object used as a map, which is what [categories] is.  Its own
    properties are enumerated with the array indices first, in ascending
    order, and the other names after them in the order of their creation:
    the list is kept in that order.  An array index is the decimal text of
    an integer from 0 to 2^32-2, without a sign or leading zeros. *)
Definition array_index (key : string) : option Z :=
  match parse_digits key None with
  | Some n =>
      if String.eqb (pretty n) key && (n <? 2 ^ 32 - 1) then Some n else None
  | None => None
  end.

Fixpoint insert_index {V} (m : list (string * V)) (n : Z) (key : string) (v : V)
    : list (string * V) :=
  match m with
  | [] => [(key, v)]
  | (k, v') :: m' =>
      match array_index k with
      | Some n' => if n' <? n then (k, v') :: insert_index m' n key v
                   else (key, v) :: m
      | None => (key, v) :: m
      end
  end.

(** [object[key] = v] *)
Definition Object_set {V} (m : list (string * V)) (key : string) (v : V)
    : list (string * V) :=
  match array_index key with
  | Some n => if Map.has m key then Map.set m key v else insert_index m n key v
  | None => Map.set m key v
  end.

(** The names that every plain object inherits from [Object.prototype]. *)
Definition Object_prototype_names : list string :=
  ["constructor"; "__defineGetter__"; "__defineSetter__"; "hasOwnProperty";
   "__lookupGetter__"; "__lookupSetter__"; "isPrototypeOf";
   "propertyIsEnumerable"; "toString"; "valueOf"; "__proto__"; "toLocaleString"].

(** The value type of [siteVisitMap]. *)
Record SiteVisits : Type := {
  sv_visits : Z;
  sv_category : string;
}.

(** A parsed [URL], as far as the service reads it: [pathname], and
    [origin], which the URL class computes from the scheme.  [protocol] is
    the scheme with its colon, [host] the host with the port when it is not
    the default one of the scheme, [blob_origin] the origin of the URL
    inside a [blob:] URL. *)
Record URL : Type := {
  protocol : string;
  host : string;
  pathname : string;
  blob_origin : string;
}.

(** [url.origin]: the scheme and the host for the schemes that have a tuple
    origin, the text [null] for every other one ([file:], [chrome:],
    [about:], [data:], [mailto:], ...). *)
Definition origin (url : URL) : string :=
  if bool_decide (protocol url ∈ ["http:"; "https:"; "ftp:"; "ws:"; "wss:"])
  then protocol url +:+ "//" +:+ host url
  else if String.eqb (protocol url) "blob:" then blob_origin url
  else "null".

(** [responseContent.match(/\{[\s\S]*\}/)]: the leftmost match starts at the
    first opening brace, and the greedy star runs to the last closing brace
    of the text.  When no closing brace follows the first opening one, none
    follows a later one either, and there is no match. *)
Fixpoint after_first_lbrace (s : string) : option string :=
  match s with
  | EmptyString => None
  | String c s' => if (c =? "{")%char then Some s' else after_first_lbrace s'
  end.

Fixpoint upto_last_rbrace (s : string) : option string :=
  match s with
  | EmptyString => None
  | String c s' =>
      match upto_last_rbrace s' with
      | Some p => Some (String c p)
      | None => if (c =? "}")%char then Some (String c EmptyString) else None
      end
  end.

Definition match_braces (s : string) : option string :=
  match after_first_lbrace s with
  | Some rest =>
      match upto_last_rbrace rest with
      | Some body => Some (String "{"%char body)
      | None => None
      end
  | None => None
  end.

Definition nl : string := String "010"%char EmptyString.
Definition quoted (s : string) : string :=
  String "034"%char (s +:+ String "034"%char EmptyString).

(** The template literal of lines 48-66. *)
Definition prompt_of (historyText : string) : string :=
  join nl [
    "";
    "      Analyze this browser history chunk by categorizing each site based on its content into one of the following categories:";
    "      [" +:+ join ", " (quoted <$> ["News"; "Social Media"; "Shopping";
        "Entertainment"; "Education"; "Technology"; "Health"; "Finance";
        "Travel"; "Sports"; "General"]) +:+ "]";
    "  ";
    "      Access the content of each URL to determine its appropriate category. Provide the total number of visits, a breakdown of visits by category, and the most visited sites. ";
    "      If the content of a URL does not fit any specific category, classify it as " +:+ quoted "Others.";
    "  ";
    "      Return only a JSON object in the following format:";
    "      {";
    "        " +:+ quoted "totalVisits" +:+ ": number,";
    "        " +:+ quoted "categories" +:+ ": {" +:+ quoted "category1" +:+ ": number, "
      +:+ quoted "category2" +:+ ": number, ...},";
    "        " +:+ quoted "mostVisitedSites" +:+ ": [{" +:+ quoted "url" +:+ ": "
      +:+ quoted "string" +:+ ", " +:+ quoted "category" +:+ ": " +:+ quoted "string"
      +:+ ", " +:+ quoted "visits" +:+ ": number}, ...],";
    "        " +:+ quoted "mostFrequentCategory" +:+ ": {" +:+ quoted "category" +:+ ": "
      +:+ quoted "string" +:+ ", " +:+ quoted "frequency" +:+ ": number},";
    "        " +:+ quoted "mostFrequentSite" +:+ ": {" +:+ quoted "url" +:+ ": "
      +:+ quoted "string" +:+ ", " +:+ quoted "category" +:+ ": " +:+ quoted "string"
      +:+ ", " +:+ quoted "visits" +:+ ": number}";
    "      }";
    "  ";
    "      Do not include any additional text, preface, or description beyond the requested JSON object. Analyze the following URLs and their content:";
    "      " +:+ historyText;
    "    "
  ].

(** ** Vocabulary of the statements *)

(** The keys of a list in the order of their first occurrence. *)
Fixpoint first_seen (keys : list string) : list string :=
  match keys with
  | [] => []
  | key :: keys' => key :: filter (λ k, k ≠ key) (first_seen keys')
  end.


(** The sum of some counts as a loop of the service computes it: from the
    left, every partial sum a double.  [double_sum] starts from the first
    count, the way a group of sites starts from the visits of its first
    site. *)
Definition double_sum (l : list Z) : Z :=
  match l with
  | [] => 0
  | x :: l' => foldl double_add x l'
  end.


(** The sites of all the reports, in the order the loops visit them. *)
Definition all_sites (reports : list DailyReport) : list Site :=
  reports ≫= mostVisitedSites.

(** The three fields of a report that the loop of [aggregateReports] reads. *)
Definition same_counts (r1 r2 : DailyReport) : Prop :=
  totalVisits r1 = totalVisits r2
  ∧ categories r1 = categories r2
  ∧ mostVisitedSites r1 = mostVisitedSites r2.

(** Successive calls of one method, each with the classifier as it answers
    at that time: the outcomes in order and the store at the end. *)
Fixpoint run_calls {A} (groqs : list (string → groq_result)) (p : prog A)
    (σ : gmap string value) : list (outcome A) * gmap string value :=
  match groqs with
  | [] => ([], σ)
  | groq :: groqs' =>
      let '(o, σ', _) := run groq p σ in
      let '(os, σ'') := run_calls groqs' p σ' in
      (o :: os, σ'')
  end.

(** The prompt [analyzeChunk] sends for a chunk. *)
Definition chunk_prompt (chunk : list HistoryItem.t) : string :=
  prompt_of (join nl ((λ item, HistoryItem.url item +:+ " - "
                                 +:+ default "" (HistoryItem.title item)) <$> chunk)).

(** The text of a reply that [analyzeChunk] reads:
    [completion.choices[0]?.message?.content || ''].  *)
Definition response_content (completion : ChatCompletion) : string :=
  default "" (mjoin (head (choices completion))).

(** Does the character occur in the string? *)
Fixpoint occurs (c : ascii) (s : string) : bool :=
  match s with
  | EmptyString => false
  | String c' s' => (c' =? c)%char || occurs c s'
  end.

(** The first balanced [{...}] substring of a text, in the words of the
    specification: from an opening brace to the closing brace that brings
    the nesting depth back to zero, for the leftmost opening brace that has
    one.  [balanced_prefix s depth] is the prefix of [s] that closes [depth]
    open braces. *)
Fixpoint balanced_prefix (s : string) (depth : nat) : option string :=
  match s with
  | EmptyString => None
  | String c s' =>
      if (c =? "}")%char then
        match depth with
        | O => None
        | S O => Some (String c EmptyString)
        | S depth' => String c <$> balanced_prefix s' depth'
        end
      else if (c =? "{")%char then String c <$> balanced_prefix s' (S depth)
      else String c <$> balanced_prefix s' depth
  end.

Fixpoint first_balanced (s : string) : option string :=
  match s with
  | EmptyString => None
  | String c s' =>
      if (c =? "{")%char then
        match balanced_prefix s' 1 with
        | Some body => Some (String c body)
        | None => first_balanced s'
        end
      else first_balanced s'
  end.

(** The chunk a call takes from the history at a progress index. *)
Definition chunk_at {A} (history : list A) (index : number) (chunkSize : Z)
    : list A :=
  slice history (num_mul index (Num chunkSize))
    (num_add (num_mul index (Num chunkSize)) (Num chunkSize)).


(** The result of [processNextChunk]. *)
Record Completed : Type := {
  completed : bool;
}.

Section Service.

(** The two library functions the service calls on text: [JSON.parse] on a
    brace match, which gives a document, a report or another object ([None]
    when it throws a [SyntaxError]), and the [URL] constructor of Node
    ([None] when it throws on a string that is no URL). *)
Variable JSON_parse : string → option value.
Variable new_URL : string → option URL.

(** *** [analyzeChunk] (lines 43-99)

    The history text is made before the [try] block is entered: reading
    [item.url] of an entry that is [null] throws a [TypeError] that no
    handler of [analyzeChunk] catches. *)
Definition analyzeChunk (chunk : list (option HistoryItem.t)) : prog value :=
  lines ← match mapM (λ entry : option HistoryItem.t,
                        item ← entry;
                        Some (HistoryItem.url item +:+ " - "
                                +:+ default "" (HistoryItem.title item))) chunk with
          | Some lines => Ret lines
          | None => Throw TypeError
          end;
  let historyText := join nl lines in
  let prompt := prompt_of historyText in
  try_catch
    (completion ← groq_chat_completions_create prompt;
     let responseContent := default "" (mjoin (head (choices completion))) in
     match match_braces responseContent with
     | Some jsonMatch =>
         match JSON_parse jsonMatch with
         | Some report => Ret report
         | None => Throw SyntaxError
         end
     | None => Throw (Error "Invalid JSON format in AI response.")
     end)
    (λ _, Ret (VReport neutral_report)).

(** The report [analyzeChunk] makes of a reply of the classifier, and the
    replies that count as a failure of the classification: a rejected
    request, a text without a brace match, a match that does not parse. *)
Definition reply_report (reply : groq_result) : value :=
  match reply with
  | Rejected _ => VReport neutral_report
  | Resolved completion =>
      match match_braces (response_content completion) with
      | Some jsonMatch => default (VReport neutral_report) (JSON_parse jsonMatch)
      | None => VReport neutral_report
      end
  end.

Definition classification_failed (reply : groq_result) : Prop :=
  match reply with
  | Rejected _ => True
  | Resolved completion =>
      match match_braces (response_content completion) with
      | Some jsonMatch => JSON_parse jsonMatch = None
      | None => True
      end
  end.

(** *** [getHistory] (lines 132-146)

    An object that is no history payload is rejected by the test of line
    139 unless it has a [history] and an [account] that are truthy; with
    both it is returned, and the caller goes on with it untyped. *)
Definition history_key (date email : string) : string :=
  "browser-history:" +:+ date +:+ ":" +:+ email.

Definition getHistory (date email : string) : prog HistoryRecord :=
  let redisKey := history_key date email in
  result ← redisService.get redisKey;
  let notFound :=
    Error ("No history found for the date: " +:+ date
             +:+ " and email: " +:+ email) in
  match result with
  | Some (VHistory (Some account) (Some history)) =>
      Ret {| account := account; history := history |}
  | Some (VObject fields) =>
      if has_truthy fields "history" && has_truthy fields "account" then Untyped
      else Throw notFound
  | _ => Throw notFound
  end.

(** *** [getChunkProgress] and [setChunkProgress] (lines 148-161) *)
Definition progress_key (date email : string) : string :=
  "chunk-progress:" +:+ date +:+ ":" +:+ email.

(** [progress ? parseInt(progress, 10) : 0]; [parseInt] of a document that
    is no string reads the text [[object Object]], which gives [NaN]. *)
Definition progress_of (progress : option value) : number :=
  if truthy progress then
    match progress with
    | Some (VString s) => parseInt s
    | _ => NaN
    end
  else Num 0.

Definition getChunkProgress (date email : string) : prog number :=
  let progressKey := progress_key date email in
  progress ← redisService.get progressKey;
  Ret (progress_of progress).

Definition setChunkProgress (date email : string) (progress : number) : prog unit :=
  let progressKey := progress_key date email in
  redisService.set progressKey (VString (num_toString progress)).

(** *** [processNextChunk] (lines 101-130) *)
Definition chunk_key (date email : string) (index : number) : string :=
  "chunk-report:" +:+ date +:+ ":" +:+ email +:+ ":" +:+ num_toString index.

Definition processNextChunk (date email : string) (chunkSize : Z) : prog Completed :=
  historyRecord ← getHistory date email;
  let totalChunks :=
    Math_ceil_div (Z.of_nat (length (history historyRecord))) chunkSize in
  currentChunkIndex ← getChunkProgress date email;
  if num_ge currentChunkIndex totalChunks then
    Ret {| completed := true |}
  else
    let start := num_mul currentChunkIndex (Num chunkSize) in
    let end_ := num_add start (Num chunkSize) in
    let chunk := slice (history historyRecord) start end_ in
    chunkReport ← analyzeChunk chunk;
    let chunkKey := chunk_key date email currentChunkIndex in
    _ ← redisService.set chunkKey chunkReport;
    _ ← setChunkProgress date email (num_add currentChunkIndex (Num 1));
    Ret {| completed := false |}.

(** *** [storeHistoryWithAccount] (lines 163-171) *)
Definition storeHistoryWithAccount (date : string) (account : Account)
    (data : list (option HistoryItem.t)) : prog unit :=
  let redisKey := history_key date (email account) in
  let payload := VHistory (Some account) (Some data) in
  redisService.set redisKey payload.

(** *** [extractMainUrl] (lines 292-311) *)
Definition extractMainUrl (fullUrl : string) : string :=
  match new_URL fullUrl with
  | Some url =>
      if String.eqb (pathname url) ""
         || String.eqb (pathname url) "/"
         || bool_decide (Z.of_nat (length (split "/"%char (pathname url))) ≤ 2)
      then origin url +:+ "/"
      else origin url +:+ "/"
  | None => fullUrl
  end.

(** *** [aggregateReports] (lines 221-290) *)

(** The body of the loop over [Object.entries(report.categories)]:
    [(categories[category] || 0) + count] is the count so far, or 0, plus the
    new count.  An assignment to [__proto__] reaches the setter that
    [Object.prototype] has for it, which ignores a value that is no object,
    so that such an entry leaves no trace.  For the other names of
    [Object_prototype_names] the read finds the inherited member instead of
    a count and the sum is a text; a text is no count, and these names are
    excluded wherever a statement speaks of the categories of an
    aggregate. *)
Definition add_category (aggregated : list (string * Z)) (entry : string * Z)
    : list (string * Z) :=
  let '(category, count) := entry in
  if String.eqb category "__proto__" then aggregated
  else
    Object_set aggregated category
      (double_add (default 0 (Map.get aggregated category)) count).

(** The body of the loop over [report.mostVisitedSites]; the match is the
    test [siteVisitMap.has(mainUrl)] together with the read
    [siteVisitMap.get(mainUrl)!] of its first branch. *)
Definition add_site (siteVisitMap : list (string * SiteVisits)) (site : Site)
    : list (string * SiteVisits) :=
  let mainUrl := extractMainUrl (url site) in
  match Map.get siteVisitMap mainUrl with
  | Some existing =>
      Map.set siteVisitMap mainUrl
        {| sv_visits := double_add (sv_visits existing) (visits site);
           sv_category := category site |}
  | None =>
      Map.set siteVisitMap mainUrl
        {| sv_visits := visits site; sv_category := category site |}
  end.

(** What the loop over the reports carries from one report to the next. *)
Record Aggregation : Type := {
  agg_totalVisits : Z;
  agg_categories : list (string * Z);
  agg_siteVisitMap : list (string * SiteVisits);
}.

Definition add_report (agg : Aggregation) (report : DailyReport) : Aggregation := {|
  agg_totalVisits := double_add (agg_totalVisits agg) (totalVisits report);
  agg_categories := foldl add_category (agg_categories agg) (categories report);
  agg_siteVisitMap := foldl add_site (agg_siteVisitMap agg) (mostVisitedSites report);
|}.

Definition aggregation (reports : list DailyReport) : Aggregation :=
  foldl add_report
    {| agg_totalVisits := 0; agg_categories := []; agg_siteVisitMap := [] |}
    reports.

(** [Array.from(siteVisitMap.entries()).map(...)] *)
Definition site_groups (siteVisitMap : list (string * SiteVisits)) : list Site :=
  (λ '(url, sv), {| url := url; visits := sv_visits sv; category := sv_category sv |})
    <$> siteVisitMap.

Definition aggregateReports (reports : list DailyReport) : DailyReport :=
  let agg := aggregation reports in
  let sorted_sites :=
    slice (Array_sort (λ a b, visits b - visits a)
             (site_groups (agg_siteVisitMap agg)))
          (Num 0) (Num 5) in
  let mostFrequentCategory :=
    head (Array_sort (λ a b : string * Z, b.2 - a.2) (agg_categories agg)) in
  {| totalVisits := agg_totalVisits agg;
     categories := agg_categories agg;
     mostVisitedSites := sorted_sites;
     mostFrequentCategory :=
       match mostFrequentCategory with
       | Some entry => {| mf_category := entry.1; frequency := entry.2 |}
       | None => {| mf_category := "General"; frequency := 0 |}
       end;
     mostFrequentSite :=
       match sorted_sites with
       | mostFrequentSite :: _ =>
           {| url := url mostFrequentSite;
              category := category mostFrequentSite;
              visits := visits mostFrequentSite |}
       | [] => {| url := ""; category := "General"; visits := 0 |}
       end |}.

(** The vocabulary of the statements about the aggregator: the grouping
    key of a site, and the visits of the sites of one key. *)
Definition site_key (site : Site) : string := extractMainUrl (url site).

Definition group_visits (key : string) (sites : list Site) : Z :=
  double_sum (visits <$> filter (λ site, site_key site = key) sites).

(** *** [finalizeDailyReport] (lines 173-207) *)
Definition report_key (date email : string) : string :=
  "daily-report:" +:+ date +:+ ":" +:+ email.

(** The [while (true)] loop of lines 178-186, cut after [fuel] rounds. *)
Fixpoint collect_reports (fuel : nat) (date email : string) (chunkIndex : Z)
    (reports : list value) : prog (list value) :=
  match fuel with
  | O => OutOfFuel
  | S fuel' =>
      let chunkKey := chunk_key date email (Num chunkIndex) in
      report ← redisService.get chunkKey;
      match report with
      | Some v =>
          if negb (truthy report) then Ret reports
          else collect_reports fuel' date email (chunkIndex + 1) (reports ++ [v])
      | None => Ret reports
      end
  end.

(** A stored document used as a [DailyReport]. *)
Definition as_report (v : value) : option DailyReport :=
  match v with
  | VReport report => Some report
  | _ => None
  end.

(** The documents on which the loop of [aggregateReports] throws a
    [TypeError] when it comes to them: [Object.entries] throws on a
    [categories] that is missing or [null], which is the case of a progress
    string and of a history payload, and [for ... of] throws on a
    [mostVisitedSites] that is neither an array nor a string.  Before the
    loop comes to such a document it does nothing but add and collect, and
    throws nothing but a [TypeError] itself. *)
Definition breaks_aggregation (v : value) : bool :=
  match v with
  | VReport _ => false
  | VString _ | VHistory _ _ => true
  | VObject fields =>
      match Map.get fields "categories" with
      | None | Some JNull => true
      | Some _ =>
          match Map.get fields "mostVisitedSites" with
          | Some (JArray _) | Some (JString _) => false
          | _ => true
          end
      end
  end.

Definition finalizeDailyReport (fuel : nat) (date email : string) : prog DailyReport :=
  reports ← collect_reports fuel date email 0 [];
  if bool_decide (length reports = 0%nat) then Ret neutral_report
  else
    match mapM as_report reports with
    | None => if existsb breaks_aggregation reports then Throw TypeError else Untyped
    | Some reports =>
        let finalReport := aggregateReports reports in
        let reportKey := report_key date email in
        _ ← redisService.set reportKey (VReport finalReport);
        Ret finalReport
    end.

(** *** [getDailyReport] (lines 209-220): the stored document as it is. *)
Definition getDailyReport (date email : string) : prog value :=
  let reportKey := report_key date email in
  result ← redisService.get reportKey;
  let notFound :=
    Error ("No daily report found for date: " +:+ date +:+ " and email: " +:+ email) in
  match result with
  | Some v => if negb (truthy result) then Throw notFound else Ret v
  | None => Throw notFound
  end.

End Service.

(** ** Instances for the examples *)

(** The [URL] constructor on the plain absolute URLs of the examples,
    [scheme://host/path]: the path name is what follows the host; without a
    path it is [/] for [http:] and [https:] and empty for another scheme. *)
Fixpoint break_at_slash (s : string) : string * string :=
  match s with
  | EmptyString => (EmptyString, EmptyString)
  | String c s' =>
      if (c =? "/")%char then (EmptyString, s)
      else let '(host, path) := break_at_slash s' in (String c host, path)
  end.

Fixpoint strip_prefix (p s : string) : option string :=
  match p, s with
  | EmptyString, _ => Some s
  | String a p', String b s' => if (a =? b)%char then strip_prefix p' s' else None
  | String _ _, EmptyString => None
  end.

Fixpoint scheme_URL (schemes : list (string * string)) (s : string) : option URL :=
  match schemes with
  | [] => None
  | (scheme, root) :: schemes' =>
      match strip_prefix (scheme +:+ "//") s with
      | Some rest =>
          let '(host, path) := break_at_slash rest in
          if String.eqb host "" then None
          else Some {| protocol := scheme; host := host;
                       pathname := if String.eqb path "" then root else path;
                       blob_origin := "null" |}
      | None => scheme_URL schemes' s
      end
  end.

Definition http_URL : string → option URL :=
  scheme_URL [("https:", "/"); ("http:", "/")].


(** [JSON.parse] on the texts of a table and a [SyntaxError] on every other
    text: a parser to run the examples with, of which each example uses the
    answers on the texts it names. *)
Definition JSON_parse_table (table : list (string * DailyReport))
    : string → option value :=
  λ text, VReport <$> Map.get table text.

(** A classifier that is down, and one that answers every prompt with the
    same text. *)
Definition groq_down : string → groq_result :=
  λ _, Rejected (APIError "connection refused").

Definition groq_says (content : string) : string → groq_result :=
  λ _, Resolved {| choices := [Some content] |}.

(** A job of seven history entries, and its store before the first call,
    after the three calls of chunk size 3, and with a report for the first
    chunk only. *)
Definition example_account : Account := {| email := "e@x.org"; name := "E" |}.

Definition example_history : list HistoryItem.t :=
  (λ path, {| HistoryItem.url := "https://a.com/" +:+ path;
              HistoryItem.title := Some path |})
    <$> ["p1"; "p2"; "p3"; "p4"; "p5"; "p6"; "p7"].

Definition example_store : gmap string value :=
  {[ history_key "2024-05-01" "e@x.org"
       := VHistory (Some example_account) (Some (Some <$> example_history)) ]}.

Definition example_store_done : gmap string value :=
  <[ progress_key "2024-05-01" "e@x.org" := VString "3" ]> example_store.


(** A report, its JSON text, and a reply of the classifier that wraps the
    text in prose with braces of its own. *)
Definition example_report : DailyReport := {|
  totalVisits := 2;
  categories := [("News", 2)];
  mostVisitedSites := [{| url := "https://a.com/x"; category := "News"; visits := 2 |}];
  mostFrequentCategory := {| mf_category := "News"; frequency := 2 |};
  mostFrequentSite := {| url := "https://a.com/x"; category := "News"; visits := 2 |};
|}.

Definition example_site_JSON : string :=
  "{" +:+ quoted "url" +:+ ":" +:+ quoted "https://a.com/x" +:+ ","
  +:+ quoted "category" +:+ ":" +:+ quoted "News" +:+ ","
  +:+ quoted "visits" +:+ ":2}".

Definition example_report_JSON : string :=
  "{" +:+ quoted "totalVisits" +:+ ":2,"
  +:+ quoted "categories" +:+ ":{" +:+ quoted "News" +:+ ":2},"
  +:+ quoted "mostVisitedSites" +:+ ":[" +:+ example_site_JSON +:+ "],"
  +:+ quoted "mostFrequentCategory" +:+ ":{" +:+ quoted "category" +:+ ":"
  +:+ quoted "News" +:+ "," +:+ quoted "frequency" +:+ ":2},"
  +:+ quoted "mostFrequentSite" +:+ ":" +:+ example_site_JSON +:+ "}".

Definition example_response : string :=
  "Here is the report: " +:+ example_report_JSON
  +:+ " (an empty object would be {})".

(** The same counts under other [mostFrequentCategory] and
    [mostFrequentSite] fields. *)
Definition example_report_relabelled : DailyReport := {|
  totalVisits := 2;
  categories := [("News", 2)];
  mostVisitedSites := [{| url := "https://a.com/x"; category := "News"; visits := 2 |}];
  mostFrequentCategory := {| mf_category := "Sports"; frequency := 40 |};
  mostFrequentSite := {| url := "https://b.org/"; category := "Sports"; visits := 40 |};
|}.

(** The two chunk reports of the example of section 8 of the specification. *)
Definition spec_report_1 : DailyReport := {|
  totalVisits := 5;
  categories := [("News", 3); ("Sports", 2)];
  mostVisitedSites := [{| url := "https://a.com/x"; category := "News"; visits := 3 |}];
  mostFrequentCategory := {| mf_category := "News"; frequency := 3 |};
  mostFrequentSite := {| url := "https://a.com/x"; category := "News"; visits := 3 |};
|}.

Definition spec_report_2 : DailyReport := {|
  totalVisits := 2;
  categories := [("News", 2)];
  mostVisitedSites := [{| url := "https://a.com/y"; category := "News"; visits := 2 |}];
  mostFrequentCategory := {| mf_category := "News"; frequency := 2 |};
  mostFrequentSite := {| url := "https://a.com/y"; category := "News"; visits := 2 |};
|}.

(** ** Vocabulary of the further statements *)

(** The category entries of all the reports, in the order the loops visit
    them, and the count of one category over some entries. *)
Definition all_categories (reports : list DailyReport) : list (string * Z) :=
  reports ≫= categories.



(** A category name that is stored and read as an own property in the
    order of its creation: no array index, and no name that a plain object
    inherits. *)
Definition plain_name (key : string) : Prop :=
  array_index key = None ∧ key ∉ Object_prototype_names.

Global Instance plain_name_dec key : Decision (plain_name key).
Proof. unfold plain_name. apply _. Defined.


(** What [getHistory] rejects: no document under the key, or a document
    without its [history] or without its [account]. *)
Definition history_incomplete (result : option value) : Prop :=
  match result with
  | Some (VHistory (Some _) (Some _)) => False
  | Some (VObject fields) =>
      has_truthy fields "history" && has_truthy fields "account" = false
  | _ => True
  end.

(** The keys of one job: its history, its progress, its daily report and its
    chunk reports, whatever the index prints as. *)
Definition key_of_job (date email key : string) : Prop :=
  key = history_key date email
  ∨ key = progress_key date email
  ∨ key = report_key date email
  ∨ ∃ index, key = chunk_key date email index.

(** The reports that the replies of a classifier make of the chunks of the
    indices below [n]. *)
Definition chunk_reports (JSON_parse : string → option value)
    (groq : string → groq_result) (items : list HistoryItem.t) (chunkSize : Z)
    (n : nat) : list value :=
  (λ i : nat, reply_report JSON_parse
                (groq (chunk_prompt (chunk_at items (Num (Z.of_nat i)) chunkSize))))
    <$> seq 0 n.

(** ** The controller (src/browser-history/browser-history.controller.ts) *)

Module BrowserHistoryController.

Record MessageResponse : Type := {
  message : string;
}.

Record ProcessChunkResponse : Type := {
  chunk_message : string;
  chunk_completed : bool;
}.

Section controller.
Variable JSON_parse : string → option value.
Variable new_URL : string → option URL.

(** [POST store] (lines 8-20) *)
Definition storeHistory (date : string) (account : Account)
    (data : list (option HistoryItem.t)) : prog MessageResponse :=
  _ ← storeHistoryWithAccount date account data;
  Ret {| message := "History and account stored successfully" |}.

(** [GET] (lines 22-28) *)
Definition getHistory (date email : string) : prog HistoryRecord :=
  result ← getHistory date email;
  Ret result.

(** [POST process-chunk/:date/:email] (lines 30-47) *)
Definition processChunk (date email : string) (chunkSize : Z)
    : prog ProcessChunkResponse :=
  result ← processNextChunk JSON_parse date email chunkSize;
  let completed := completed result in
  Ret {| chunk_message :=
           if completed then "All chunks processed"
           else "Chunk processed successfully";
         chunk_completed := completed |}.

(** [POST finalize-report/:date/:email] (lines 49-55) *)
Definition finalizeReport (fuel : nat) (date email : string) : prog DailyReport :=
  result ← finalizeDailyReport new_URL fuel date email;
  Ret result.

(** [GET daily-report/:date/:email] (lines 57-63) *)
Definition getDailyReport (date email : string) : prog value :=
  result ← getDailyReport date email;
  Ret result.

End controller.
End BrowserHistoryController.

(** ** Further instances for the examples *)

(** The store of the example job with the reports of its three chunks and no
    progress entry, and the store with a progress entry that is no number. *)
Definition example_store_reports : gmap string value :=
  <[ chunk_key "2024-05-01" "e@x.org" (Num 2) := VReport neutral_report ]>
    (<[ chunk_key "2024-05-01" "e@x.org" (Num 1) := VReport example_report ]>
       (<[ chunk_key "2024-05-01" "e@x.org" (Num 0) := VReport spec_report_1 ]>
          example_store)).

Definition example_store_corrupt : gmap string value :=
  <[ progress_key "2024-05-01" "e@x.org" := VString "soon" ]> example_store.


(** The outcome of a caller that returns [f result] of what it awaits. *)
Definition outcome_map {A B} (f : A → B) (o : outcome A) : outcome B :=
  match o with
  | Returned a => Returned (f a)
  | Thrown e => Thrown e
  | Cut => Cut
  | Unmodelled => Unmodelled
  end.

(** What [processChunk] makes of the result of [processNextChunk]. *)
Definition chunk_response (result : Completed)
    : BrowserHistoryController.ProcessChunkResponse :=
  {| BrowserHistoryController.chunk_message :=
       if completed result then "All chunks processed"
       else "Chunk processed successfully";
     BrowserHistoryController.chunk_completed := completed result |}.

(** The JSON text of the example report without its outer braces, and a
    reply that wraps the text in prose without braces. *)
Definition example_report_body : string :=
  String.substring 1 (String.length example_report_JSON - 2) example_report_JSON.

Definition example_response_plain : string :=
  "Here is the report: " +:+ example_report_JSON +:+ " I hope it helps.".

(** A history whose second entry is [null], and a store that holds it. *)
Definition example_history_null : list (option HistoryItem.t) :=
  [Some {| HistoryItem.url := "https://a.com/p1"; HistoryItem.title := Some "p1" |};
   None;
   Some {| HistoryItem.url := "https://a.com/p3"; HistoryItem.title := None |}].

Definition example_store_null : gmap string value :=
  {[ history_key "2024-05-01" "e@x.org"
       := VHistory (Some example_account) (Some example_history_null) ]}.

(** [JSON.parse] on the texts of a table of documents, and the store of
    the example job after a first call to which the classifier replies with
    an empty object. *)
Definition JSON_parse_documents (table : list (string * value))
    : string → option value :=
  λ text, Map.get table text.

Definition example_store_empty_object : gmap string value :=
  (run (groq_says "{}")
     (processNextChunk (JSON_parse_documents [("{}", VObject [])])
        "2024-05-01" "e@x.org" 3)
     example_store).1.2.




(** * Properties *)

(** ** Sorting *)

Section sort_by_key.
Context {A : Type} (key : A → Z).

(** The comparator [(a, b) => key(b) - key(a)]: descending by key. *)
Local Abbreviation descending := (λ a b : A, key b - key a).
Local Abbreviation above := (λ a b : A, key b ≤ key a).

Lemma sort_insert_perm x l : sort_insert descending x l ≡ₚ x :: l.
Proof.
  induction l as [|y l IH]; simpl; [done|].
  destruct (descending x y <=? 0); [done|].
  rewrite IH. apply Permutation_swap.
Qed.

Lemma Array_sort_perm l : Array_sort descending l ≡ₚ l.
Proof.
  induction l as [|x l IH]; simpl; [done|].
  fold (Array_sort descending l). by rewrite sort_insert_perm, IH.
Qed.

Lemma sort_insert_sorted x l :
  StronglySorted above l → StronglySorted above (sort_insert descending x l).
Proof.
  induction 1 as [|y l Hl IH Hy]; simpl.
  - repeat constructor.
  - destruct (Z.leb_spec (descending x y) 0) as [Hle|Hgt].
    + constructor; [by constructor|].
      constructor; [simpl in *; lia|].
      eapply Forall_impl; [exact Hy|]. simpl in *. intros; lia.
    + constructor; [done|].
      rewrite sort_insert_perm. constructor; [simpl in *; lia|done].
Qed.

Lemma Array_sort_sorted l : StronglySorted above (Array_sort descending l).
Proof.
  induction l as [|x l IH]; simpl; [constructor|].
  by apply sort_insert_sorted.
Qed.

(** Stability: the elements of one key stand in the order they had. *)
Lemma sort_insert_stable v x l :
  filter (λ a, key a = v) (sort_insert descending x l)
  = filter (λ a, key a = v) (x :: l).
Proof.
  induction l as [|y l IH]; simpl; [done|].
  destruct (Z.leb_spec (descending x y) 0) as [Hle|Hgt]; [done|].
  simpl in Hgt.
  rewrite (filter_cons _ y), IH, !filter_cons.
  repeat case_decide; try done; lia.
Qed.

Lemma Array_sort_stable v l :
  filter (λ a, key a = v) (Array_sort descending l) = filter (λ a, key a = v) l.
Proof.
  induction l as [|x l IH]; simpl; [done|].
  fold (Array_sort descending l).
  by rewrite sort_insert_stable, !filter_cons, IH.
Qed.

(** A list that is descending by key is determined by the sub-lists of
    its elements of each key: there is one stably sorted arrangement. *)
Lemma sorted_stable_unique l1 l2 :
  StronglySorted above l1 → StronglySorted above l2 →
  (∀ v, filter (λ a, key a = v) l1 = filter (λ a, key a = v) l2) →
  l1 = l2.
Proof.
  intros Hs1. revert l2.
  induction Hs1 as [|a l1 Hs1 IH Ha]; intros l2 Hs2 Hf.
  - destruct l2 as [|b l2]; [done|].
    specialize (Hf (key b)). rewrite filter_cons in Hf.
    by case_decide.
  - destruct Hs2 as [|b l2 Hs2 Hb].
    { specialize (Hf (key a)). rewrite filter_cons in Hf. by case_decide. }
    assert (key a = key b) as Hab.
    { assert (a ∈ b :: l2) as Hin2.
      { pose proof (Hf (key a)) as Hfa. rewrite filter_cons in Hfa.
        case_decide; [|done].
        assert (a ∈ filter (λ x, key x = key a) (b :: l2)) as Hin
          by (rewrite <- Hfa; left).
        by apply list_elem_of_filter in Hin as [_ ?]. }
      assert (b ∈ a :: l1) as Hin1.
      { pose proof (Hf (key b)) as Hfb. rewrite (filter_cons _ b) in Hfb.
        case_decide; [|done].
        assert (b ∈ filter (λ x, key x = key b) (a :: l1)) as Hin
          by (rewrite Hfb; left).
        by apply list_elem_of_filter in Hin as [_ ?]. }
      simpl in *.
      apply elem_of_cons in Hin2 as [->|Hin2]; [done|].
      apply elem_of_cons in Hin1 as [->|Hin1]; [done|].
      rewrite Forall_forall in Ha, Hb.
      specialize (Ha _ Hin1). specialize (Hb _ Hin2). lia. }
    pose proof (Hf (key a)) as Hfa. rewrite !filter_cons in Hfa.
    rewrite !decide_True in Hfa by done.
    injection Hfa as -> Hfa. f_equal.
    apply IH; [done|]. intros v.
    destruct (decide (v = key b)) as [->|Hne]; [done|].
    specialize (Hf v). rewrite !filter_cons in Hf.
    rewrite !decide_False in Hf by congruence. done.
Qed.

(** So [Array_sort] is the only array a stable sort can return. *)
Lemma Array_sort_unique l sorted :
  StronglySorted above sorted →
  (∀ v, filter (λ a, key a = v) sorted = filter (λ a, key a = v) l) →
  sorted = Array_sort descending l.
Proof.
  intros Hs Hf. apply sorted_stable_unique; [done|apply Array_sort_sorted|].
  intros v. by rewrite Hf, Array_sort_stable.
Qed.
End sort_by_key.

(** [arr.slice(0, n)] keeps the first [n] elements. *)
Lemma slice_0 {A} (arr : list A) (n : nat) :
  slice arr (Num 0) (Num (Z.of_nat n)) = take n arr.
Proof.
  unfold slice, relative_index. simpl.
  destruct (Z.ltb_spec (Z.of_nat n) 0); [lia|].
  rewrite (Z.min_l 0) by lia. rewrite Z.sub_0_r.
  change (Z.to_nat 0) with 0%nat. rewrite drop_0.
  destruct (Z.min_spec (Z.of_nat n) (Z.of_nat (length arr))) as [[? ->]|[? ->]];
    rewrite Nat2Z.id; [done|].
  rewrite !take_ge by lia. done.
Qed.

(** ** Maps in insertion order *)

Section map_facts.
Context {V : Type}.
Implicit Types (m : list (string * V)) (key : string) (v : V).

Lemma Map_get_set m key v key' :
  Map.get (Map.set m key v) key'
  = if decide (key = key') then Some v else Map.get m key'.
Proof.
  induction m as [|[k w] m IH]; simpl.
  - destruct (String.eqb_spec key key'); case_decide; congruence.
  - destruct (String.eqb_spec k key) as [->|Hk]; simpl.
    + destruct (String.eqb_spec key key'); case_decide; congruence.
    + rewrite IH. destruct (String.eqb_spec k key'); case_decide; congruence.
Qed.

Lemma Map_has_elem_of m key : Map.has m key = true ↔ key ∈ m.*1.
Proof.
  unfold Map.has. induction m as [|[k w] m IH]; csimpl.
  - rewrite elem_of_nil. split; [done|tauto].
  - rewrite elem_of_cons. destruct (String.eqb_spec k key) as [->|Hk].
    + split; [by left|done].
    + rewrite IH. split; [by right|]. intros [?|?]; [congruence|done].
Qed.

Lemma Map_has_false m key : Map.has m key = false ↔ key ∉ m.*1.
Proof. rewrite <- Map_has_elem_of. by destruct (Map.has m key). Qed.

(** [set] keeps the place of a key that is present and appends a new one. *)
Lemma Map_keys_set m key v :
  (Map.set m key v).*1 = if Map.has m key then m.*1 else m.*1 ++ [key].
Proof.
  unfold Map.has. induction m as [|[k w] m IH]; csimpl; [done|].
  destruct (String.eqb_spec k key) as [->|Hk]; csimpl; [done|].
  rewrite IH. by destruct (Map.get m key).
Qed.

Lemma Map_get_elem_of m key v :
  NoDup m.*1 → (key, v) ∈ m → Map.get m key = Some v.
Proof.
  induction m as [|[k w] m IH]; csimpl; intros Hnd Hin.
  - by apply elem_of_nil in Hin.
  - apply NoDup_cons in Hnd as [Hk Hnd].
    apply elem_of_cons in Hin as [[= -> ->]|Hin].
    + by rewrite String.eqb_refl.
    + destruct (String.eqb_spec k key) as [->|_]; [|by apply IH].
      destruct Hk. apply list_elem_of_fmap. by exists (key, v).
Qed.
End map_facts.

(** ** The aggregator *)

Lemma string_app_assoc s1 s2 s3 : (s1 +:+ s2) +:+ s3 = s1 +:+ s2 +:+ s3.
Proof.
  induction s1 as [|c s1 IH]; [done|].
  change (String c ((s1 +:+ s2) +:+ s3) = String c (s1 +:+ s2 +:+ s3)).
  by rewrite IH.
Qed.

Lemma filter_Forall {A} (P : A → Prop) `{∀ x, Decision (P x)} (l : list A) :
  Forall P l → filter P l = l.
Proof.
  induction 1 as [|x l Hx _ IH]; [done|].
  by rewrite filter_cons, decide_True, IH.
Qed.

Lemma first_seen_subseteq keys : first_seen keys ⊆ keys.
Proof.
  induction keys as [|key keys IH]; simpl; [done|].
  intros k. rewrite !elem_of_cons, list_elem_of_filter.
  intros [->|[_ Hk]]; [by left|right; by apply IH].
Qed.

Lemma first_seen_NoDup keys : NoDup (first_seen keys).
Proof.
  induction keys as [|key keys IH]; simpl; [constructor|].
  apply NoDup_cons. split.
  - rewrite list_elem_of_filter. by intros [? _].
  - by apply NoDup_filter.
Qed.

Lemma elem_of_first_seen keys key : key ∈ first_seen keys ↔ key ∈ keys.
Proof.
  induction keys as [|k keys IH]; simpl; [done|].
  rewrite !elem_of_cons, list_elem_of_filter, IH.
  destruct (decide (key = k)); tauto.
Qed.


(** *** Sums of counts in doubles *)

Lemma round_double_small z : Z.abs z ≤ 2 ^ 53 → round_double z = z.
Proof. intros H. unfold round_double. apply Z.leb_le in H. now rewrite H. Qed.

(* a value with at most 53 significant bits *)
Lemma round_double_scaled q e :
  2 ^ 52 ≤ q ≤ 2 ^ 53 → 0 ≤ e → round_double (q * 2 ^ e) = q * 2 ^ e.
Proof.
  intros Hq He. unfold round_double.
  assert (0 < 2 ^ e) by (apply Z.pow_pos_nonneg; lia).
  assert (0 < q) by lia.
  assert (0 < q * 2 ^ e) by nia.
  rewrite Z.abs_eq by lia.
  destruct (Z.leb_spec (q * 2 ^ e) (2 ^ 53)) as [|Hbig]; [reflexivity|].
  rewrite Z.sgn_pos by lia. rewrite Z.mul_1_l.
  assert (q = 2 ^ 53 ∨ q < 2 ^ 53) as [->|Hlt] by lia.
  - assert (1 ≤ e) by (destruct (Z.eq_dec e 0) as [->|]; [simpl in Hbig; lia|lia]).
    rewrite <- Z.pow_add_r by lia.
    rewrite Z.log2_pow2 by lia.
    replace (53 + e - 52) with (e + 1) by lia.
    replace (2 ^ (53 + e)) with (2 ^ 52 * 2 ^ (e + 1)) by (rewrite <- Z.pow_add_r by lia; f_equal; lia).
    assert (0 < 2 ^ (e + 1)) by (apply Z.pow_pos_nonneg; lia).
    rewrite Z.div_mul by lia. rewrite Z.mod_mul by lia.
    assert (0 < 2 ^ (e + 1 - 1)) by (apply Z.pow_pos_nonneg; lia).
    destruct (Z.ltb_spec 0 (2 ^ (e + 1 - 1))); [reflexivity|lia].
  - rewrite Z.log2_mul_pow2 by lia.
    assert (Z.log2 q = 52) as -> by (apply Z.log2_unique; [lia|]; change (Z.succ 52) with 53; lia).
    replace (e + 52 - 52) with e by lia.
    rewrite Z.div_mul by lia. rewrite Z.mod_mul by lia.
    assert (1 ≤ e) by (destruct (Z.eq_dec e 0) as [->|]; [simpl in Hbig; lia|lia]).
    assert (0 < 2 ^ (e - 1)) by (apply Z.pow_pos_nonneg; lia).
    destruct (Z.ltb_spec 0 (2 ^ (e - 1))); [reflexivity|lia].
Qed.

Lemma round_double_opp z : round_double (- z) = - round_double z.
Proof.
  unfold round_double. rewrite Z.abs_opp, Z.sgn_opp.
  destruct (Z.abs z <=? 2 ^ 53); lia.
Qed.

Lemma round_double_idem z : round_double (round_double z) = round_double z.
Proof.
  assert (∀ z, 0 ≤ z → round_double (round_double z) = round_double z) as Hpos.
  { clear z. intros z Hz.
    destruct (Z.le_gt_cases z (2 ^ 53)) as [Hs|Hbig].
    { rewrite !(round_double_small z) by (rewrite Z.abs_eq; lia). reflexivity. }
    assert (∃ q e, round_double z = q * 2 ^ e ∧ 2 ^ 52 ≤ q ≤ 2 ^ 53 ∧ 0 ≤ e)
      as (q & e & -> & Hq & He); [|now apply round_double_scaled].
    unfold round_double. rewrite Z.abs_eq by lia.
    destruct (Z.leb_spec z (2 ^ 53)) as [|_]; [lia|].
    rewrite Z.sgn_pos by lia. rewrite Z.mul_1_l.
    assert (53 ≤ Z.log2 z) as Hlog
      by exact (proj1 (Z.log2_le_pow2 z 53 ltac:(lia)) ltac:(lia)).
    set (e := Z.log2 z - 52).
    assert (0 < 2 ^ e) by (apply Z.pow_pos_nonneg; lia).
    pose proof (Z.log2_spec z ltac:(lia)) as [Hlo Hhi].
    replace (Z.log2 z) with (52 + e) in Hlo by lia.
    replace (Z.succ (Z.log2 z)) with (53 + e) in Hhi by lia.
    rewrite Z.pow_add_r in Hlo, Hhi by lia.
    assert (2 ^ 52 ≤ z / 2 ^ e) by (apply Z.div_le_lower_bound; lia).
    assert (z / 2 ^ e < 2 ^ 53) by (apply Z.div_lt_upper_bound; lia).
    eexists _, e. split; [reflexivity|]. split; [|lia].
    repeat match goal with |- context [if ?c then _ else _] => destruct c end; lia. }
  destruct (Z.le_gt_cases 0 z) as [|Hneg]; [auto|].
  assert (∃ y, z = - y ∧ 0 ≤ y) as (y & -> & Hy) by (exists (- z); lia).
  rewrite !round_double_opp. rewrite Hpos by lia. reflexivity.
Qed.




Section aggregator.
Variable new_URL : string → option URL.


Lemma add_site_get siteVisitMap site key :
  Map.get (add_site new_URL siteVisitMap site) key
  = if decide (site_key new_URL site = key)
    then Some {| sv_visits :=
                   match Map.get siteVisitMap key with
                   | Some existing => double_add (sv_visits existing) (visits site)
                   | None => visits site
                   end;
                 sv_category := category site |}
    else Map.get siteVisitMap key.
Proof.
  unfold add_site, site_key.
  destruct (Map.get siteVisitMap (extractMainUrl new_URL (url site)))
    as [existing|] eqn:Hget; rewrite Map_get_set;
    case_decide as Hk; try done; subst key; rewrite Hget; simpl; done.
Qed.



Lemma add_site_keys siteVisitMap site :
  (add_site new_URL siteVisitMap site).*1
  = if decide (site_key new_URL site ∈ siteVisitMap.*1) then siteVisitMap.*1
    else siteVisitMap.*1 ++ [site_key new_URL site].
Proof.
  unfold add_site, site_key.
  destruct (Map.has siteVisitMap (extractMainUrl new_URL (url site))) eqn:Hhas.
  - rewrite decide_True by (by apply Map_has_elem_of).
    destruct (Map.get siteVisitMap _) eqn:Hget; rewrite Map_keys_set, Hhas; done.
  - rewrite decide_False by (by apply Map_has_false).
    destruct (Map.get siteVisitMap _) eqn:Hget; rewrite Map_keys_set, Hhas; done.
Qed.


(** The keys after the loop, in insertion order. *)
Lemma foldl_add_site_keys sites siteVisitMap :
  (foldl (add_site new_URL) siteVisitMap sites).*1
  = siteVisitMap.*1
    ++ filter (λ k, k ∉ siteVisitMap.*1) (first_seen (site_key new_URL <$> sites)).
Proof.
  revert siteVisitMap.
  induction sites as [|site sites IH]; intros siteVisitMap; simpl.
  - by rewrite app_nil_r.
  - rewrite IH, add_site_keys, filter_cons.
    case_decide as Hin.
    + rewrite decide_False by tauto. f_equal.
      rewrite list_filter_filter. apply list_filter_iff.
      intros k. split; [|tauto]. intros Hk. split; [done|]. by intros ->.
    + rewrite decide_True by done. rewrite <- app_assoc. simpl. do 2 f_equal.
      rewrite list_filter_filter. apply list_filter_iff.
      intros k. rewrite not_elem_of_app, list_elem_of_singleton. tauto.
Qed.

Lemma aggregation_siteVisitMap reports agg :
  agg_siteVisitMap (foldl (add_report new_URL) agg reports)
  = foldl (add_site new_URL) (agg_siteVisitMap agg) (all_sites reports).
Proof.
  revert agg. induction reports as [|report reports IH]; intros agg; [done|].
  simpl. rewrite IH. unfold all_sites. simpl. by rewrite foldl_app.
Qed.


Lemma site_groups_url siteVisitMap : url <$> site_groups siteVisitMap = siteVisitMap.*1.
Proof.
  unfold site_groups. rewrite <- list_fmap_compose.
  apply list_fmap_ext. by intros _ [k sv] _.
Qed.
End aggregator.

Section aggregateReports_properties.
Variable new_URL : string → option URL.


Lemma aggregateReports_mostVisitedSites reports :
  mostVisitedSites (aggregateReports new_URL reports)
  = take 5 (Array_sort (λ a b, visits b - visits a)
              (site_groups (agg_siteVisitMap (aggregation new_URL reports)))).
Proof. unfold aggregateReports. simpl. apply (slice_0 _ 5). Qed.

Lemma aggregation_keys reports :
  (agg_siteVisitMap (aggregation new_URL reports)).*1
  = first_seen (site_key new_URL <$> all_sites reports).
Proof.
  unfold aggregation. rewrite aggregation_siteVisitMap, foldl_add_site_keys.
  simpl. apply filter_Forall, Forall_forall. intros k _. apply not_elem_of_nil.
Qed.


Lemma aggregation_same_counts reports1 reports2 agg :
  Forall2 same_counts reports1 reports2 →
  foldl (add_report new_URL) agg reports1 = foldl (add_report new_URL) agg reports2.
Proof.
  intros Hsame. revert agg.
  induction Hsame as [|r1 r2 reports1 reports2 (Ht & Hc & Hs) _ IH];
    intros agg; simpl; [done|].
  rewrite <- IH. f_equal. unfold add_report. by rewrite Ht, Hc, Hs.
Qed.

(** C10: the aggregate depends on the [totalVisits], [categories] and
    [mostVisitedSites] fields of the reports only: two sequences of the
    same length that agree on these three fields report by report have the
    same aggregate, whatever their [mostFrequentCategory] and
    [mostFrequentSite] fields hold. *)
Theorem aggregateReports_reads_three_fields (reports1 reports2 : list DailyReport) :
  Forall2 same_counts reports1 reports2 →
  aggregateReports new_URL reports1 = aggregateReports new_URL reports2.
Proof.
  intros Hsame. unfold aggregateReports, aggregation.
  by rewrite (aggregation_same_counts _ _ _ Hsame).
Qed.

(** C5: the [mostVisitedSites] of the aggregate are the first five of the
    site groups sorted by visits in descending order with groups of equal
    visits kept in the order in which their keys were first seen: the
    sorted sequence is a permutation of the groups, descending by visits,
    and for every number of visits its groups stand as in the insertion
    order of the map, whose keys are the grouping keys of the sites in
    order of first occurrence. *)
Theorem aggregateReports_mostVisitedSites_sorted (reports : list DailyReport) :
  let groups := site_groups (agg_siteVisitMap (aggregation new_URL reports)) in
  url <$> groups = first_seen (site_key new_URL <$> all_sites reports)
  ∧ ∃ sorted,
      mostVisitedSites (aggregateReports new_URL reports) = take 5 sorted
      ∧ (length (mostVisitedSites (aggregateReports new_URL reports)) ≤ 5)%nat
      ∧ sorted ≡ₚ groups
      ∧ StronglySorted (λ a b, visits b ≤ visits a) sorted
      ∧ ∀ v, filter (λ site, visits site = v) sorted
             = filter (λ site, visits site = v) groups.
Proof.
  intros groups. split.
  { subst groups. by rewrite site_groups_url, aggregation_keys. }
  exists (Array_sort (λ a b, visits b - visits a) groups).
  rewrite aggregateReports_mostVisitedSites. fold groups.
  split; [done|]. split; [rewrite length_take; lia|].
  split; [apply (Array_sort_perm visits)|].
  split; [apply (Array_sort_sorted visits)|].
  intros v. apply (Array_sort_stable visits).
Qed.


End aggregateReports_properties.




Lemma aggregateReports_reads_three_fields_witness :
  Forall2 same_counts [example_report] [example_report_relabelled]
  ∧ aggregateReports http_URL [example_report]
    = aggregateReports http_URL [example_report_relabelled].
Proof.
  assert (Forall2 same_counts [example_report] [example_report_relabelled]) as H1.
  { constructor; [|constructor]. repeat split. }
  split; [exact H1|].
  exact (aggregateReports_reads_three_fields http_URL _ _ H1).
Defined.

(** The example of section 8 of the specification: the pages [/x] and [/y]
    of one host fall into the single group of its origin, with the visits
    added up. *)
Example aggregateReports_spec_example :
  aggregateReports http_URL [spec_report_1; spec_report_2]
  = {| totalVisits := 7;
       categories := [("News", 5); ("Sports", 2)];
       mostVisitedSites :=
         [{| url := "https://a.com/"; category := "News"; visits := 5 |}];
       mostFrequentCategory := {| mf_category := "News"; frequency := 5 |};
       mostFrequentSite :=
         {| url := "https://a.com/"; category := "News"; visits := 5 |} |}.
Proof. vm_compute. reflexivity. Qed.

(** Groups of equal visits keep the order in which they were first seen,
    and only five groups are kept. *)
Example aggregateReports_ties_example :
  url <$> mostVisitedSites
            (aggregateReports http_URL
               [{| totalVisits := 0; categories := [];
                   mostVisitedSites :=
                     (λ '(u, n), {| url := u; category := "General"; visits := n |})
                       <$> [("https://c.org/1", 2); ("https://a.org/", 7);
                            ("https://b.org/", 2); ("https://d.org/", 7);
                            ("https://c.org/2", 1); ("https://e.org/", 2);
                            ("https://f.org/", 2); ("not a url", 9)];
                   mostFrequentCategory := {| mf_category := "General"; frequency := 0 |};
                   mostFrequentSite :=
                     {| url := ""; category := "General"; visits := 0 |} |}])
  = ["not a url"; "https://a.org/"; "https://d.org/"; "https://c.org/"; "https://b.org/"].
Proof. vm_compute. reflexivity. Qed.

(** ** Keys *)

(** The four kinds of key differ in their first characters, whatever the
    date and the address are. *)
Lemma chunk_key_ne_progress_key date email index date' email' :
  chunk_key date email index ≠ progress_key date' email'.
Proof. unfold chunk_key, progress_key. simpl. intros H. discriminate H. Qed.

Lemma chunk_key_ne_history_key date email index date' email' :
  chunk_key date email index ≠ history_key date' email'.
Proof. unfold chunk_key, history_key. simpl. intros H. discriminate H. Qed.

Lemma progress_key_ne_history_key date email date' email' :
  progress_key date email ≠ history_key date' email'.
Proof. unfold progress_key, history_key. simpl. intros H. discriminate H. Qed.

Lemma chunk_key_ne_report_key date email index date' email' :
  chunk_key date email index ≠ report_key date' email'.
Proof. unfold chunk_key, report_key. simpl. intros H. discriminate H. Qed.

Lemma progress_key_ne_report_key date email date' email' :
  progress_key date email ≠ report_key date' email'.
Proof. unfold progress_key, report_key. simpl. intros H. discriminate H. Qed.

(** ** Running the service *)

Lemma run_bind {A B} groq (p : prog A) (f : A → prog B) σ :
  run groq (p ≫= f) σ
  = match run groq p σ with
    | (Returned a, σ', tr) =>
        let '(o, σ'', tr') := run groq (f a) σ' in (o, σ'', tr ++ tr')
    | (Thrown e, σ', tr) => (Thrown e, σ', tr)
    | (Cut, σ', tr) => (Cut, σ', tr)
    | (Unmodelled, σ', tr) => (Unmodelled, σ', tr)
    end.
Proof.
  unfold mbind, prog_bind. revert σ.
  induction p as [a|e|key k IH|key v k IH|prompt k IH| |]; intros σ; simpl.
  - by destruct (run groq (f a) σ) as [[o σ'] tr].
  - done.
  - rewrite IH. by destruct (run groq (k (σ !! key)) σ) as [[[a|e| |] σ'] tr];
      [destruct (run groq (f a) σ') as [[o σ''] tr']|..].
  - rewrite IH. by destruct (run groq k (<[key:=v]> σ)) as [[[a|e| |] σ'] tr];
      [destruct (run groq (f a) σ') as [[o σ''] tr']|..].
  - rewrite IH. by destruct (run groq (k (groq prompt)) σ) as [[[a|e| |] σ'] tr];
      [destruct (run groq (f a) σ') as [[o σ''] tr']|..].
  - done.
  - done.
Qed.


Lemma mapM_Some_fmap {A B} (g : A → B) (l : list A) :
  mapM (λ entry : option A, item ← entry; Some (g item)) (Some <$> l)
  = Some (g <$> l).
Proof.
  apply mapM_Some, Forall2_fmap, Forall_Forall2_diag, Forall_forall.
  by intros x _.
Qed.

Lemma null_or_objects {A} (l : list (option A)) :
  None ∈ l ∨ ∃ l', l = Some <$> l'.
Proof.
  induction l as [|[x|] l IH]; [right; by exists []| |left; left].
  destruct IH as [Hnull|[l' ->]]; [left; by right|right; by exists (x :: l')].
Qed.

Lemma slice_fmap {A B} (f : A → B) (l : list A) start end_ :
  slice (f <$> l) start end_ = f <$> slice l start end_.
Proof. unfold slice. by rewrite length_fmap, fmap_take, fmap_drop. Qed.

Lemma chunk_at_fmap {A B} (f : A → B) (l : list A) index chunkSize :
  chunk_at (f <$> l) index chunkSize = f <$> chunk_at l index chunkSize.
Proof. apply slice_fmap. Qed.

Section run_service.
Variable JSON_parse : string → option value.
Variable groq : string → groq_result.

(** A chunk whose entries are all objects: the prompt is made and sent. *)
Lemma analyzeChunk_run (chunk : list HistoryItem.t) σ :
  run groq (analyzeChunk JSON_parse (Some <$> chunk)) σ
  = (Returned (reply_report JSON_parse (groq (chunk_prompt chunk))), σ,
     [EvGroq (chunk_prompt chunk)]).
Proof.
  unfold analyzeChunk, reply_report, response_content.
  rewrite mapM_Some_fmap. simpl.
  fold (chunk_prompt chunk).
  destruct (groq (chunk_prompt chunk)) as [e|completion]; simpl; [done|].
  destruct (match_braces _) as [jsonMatch|]; simpl; [|done].
  by destruct (JSON_parse jsonMatch).
Qed.

(** A chunk with an entry that is [null]: the [TypeError] of the read of
    [item.url] leaves [analyzeChunk] before the request is made. *)
Lemma analyzeChunk_run_null (chunk : list (option HistoryItem.t)) σ :
  None ∈ chunk →
  run groq (analyzeChunk JSON_parse chunk) σ = (Thrown TypeError, σ, []).
Proof.
  intros Hnull. unfold analyzeChunk.
  destruct (mapM _ chunk) as [lines|] eqn:Hlines; [|done].
  exfalso. assert (is_Some (mapM (λ entry : option HistoryItem.t,
                        item ← entry;
                        Some (HistoryItem.url item +:+ " - "
                                +:+ default "" (HistoryItem.title item))) chunk))
    as Hsome by (by rewrite Hlines).
  apply mapM_is_Some in Hsome.
  apply (proj1 (Forall_forall _ _) Hsome) in Hnull. by destruct Hnull.
Qed.

Lemma getHistory_run date email σ account items :
  σ !! history_key date email = Some (VHistory (Some account) (Some items)) →
  run groq (getHistory date email) σ
  = (Returned {| account := account; history := items |}, σ,
     [EvGet (history_key date email)]).
Proof. intros Hhistory. unfold getHistory. simpl. by rewrite Hhistory. Qed.

Lemma getChunkProgress_run date email σ :
  run groq (getChunkProgress date email) σ
  = (Returned (progress_of (σ !! progress_key date email)), σ,
     [EvGet (progress_key date email)]).
Proof. done. Qed.

(** A call in a terminal state, and a call in a state that is not
    terminal on a chunk whose entries are all objects, whatever the other
    entries of the history are. *)
Lemma processNextChunk_run_completed_any date email chunkSize σ account items :
  σ !! history_key date email = Some (VHistory (Some account) (Some items)) →
  num_ge (progress_of (σ !! progress_key date email))
         (Math_ceil_div (Z.of_nat (length items)) chunkSize) = true →
  run groq (processNextChunk JSON_parse date email chunkSize) σ
  = (Returned {| completed := true |}, σ,
     [EvGet (history_key date email); EvGet (progress_key date email)]).
Proof.
  intros Hhistory Hge. unfold processNextChunk.
  rewrite run_bind, (getHistory_run _ _ _ _ _ Hhistory). cbv beta iota.
  rewrite run_bind, getChunkProgress_run. cbv beta iota.
  cbn [history]. by rewrite Hge.
Qed.

Lemma processNextChunk_run_advance_any date email chunkSize σ account items chunk :
  σ !! history_key date email = Some (VHistory (Some account) (Some items)) →
  let index := progress_of (σ !! progress_key date email) in
  let report := reply_report JSON_parse (groq (chunk_prompt chunk)) in
  num_ge index (Math_ceil_div (Z.of_nat (length items)) chunkSize) = false →
  chunk_at items index chunkSize = Some <$> chunk →
  run groq (processNextChunk JSON_parse date email chunkSize) σ
  = (Returned {| completed := false |},
     <[progress_key date email := VString (num_toString (num_add index (Num 1)))]>
       (<[chunk_key date email index := report]> σ),
     [EvGet (history_key date email); EvGet (progress_key date email);
      EvGroq (chunk_prompt chunk);
      EvSet (chunk_key date email index) report;
      EvSet (progress_key date email)
        (VString (num_toString (num_add index (Num 1))))]).
Proof.
  intros Hhistory index report Hge Hchunk. unfold processNextChunk.
  rewrite run_bind, (getHistory_run _ _ _ _ _ Hhistory). cbv beta iota.
  rewrite run_bind, getChunkProgress_run. cbv beta iota.
  cbn [history]. fold index. rewrite Hge.
  unfold chunk_at in Hchunk. rewrite Hchunk.
  rewrite run_bind, analyzeChunk_run. done.
Qed.

Lemma processNextChunk_run_null date email chunkSize σ account items :
  σ !! history_key date email = Some (VHistory (Some account) (Some items)) →
  let index := progress_of (σ !! progress_key date email) in
  num_ge index (Math_ceil_div (Z.of_nat (length items)) chunkSize) = false →
  None ∈ chunk_at items index chunkSize →
  run groq (processNextChunk JSON_parse date email chunkSize) σ
  = (Thrown TypeError, σ,
     [EvGet (history_key date email); EvGet (progress_key date email)]).
Proof.
  intros Hhistory index Hge Hnull. unfold processNextChunk.
  rewrite run_bind, (getHistory_run _ _ _ _ _ Hhistory). cbv beta iota.
  rewrite run_bind, getChunkProgress_run. cbv beta iota.
  cbn [history]. fold index. rewrite Hge.
  rewrite run_bind, analyzeChunk_run_null; done.
Qed.

Lemma processNextChunk_run_completed date email chunkSize σ account items :
  σ !! history_key date email = Some (VHistory (Some account) (Some (Some <$> items))) →
  num_ge (progress_of (σ !! progress_key date email))
         (Math_ceil_div (Z.of_nat (length items)) chunkSize) = true →
  run groq (processNextChunk JSON_parse date email chunkSize) σ
  = (Returned {| completed := true |}, σ,
     [EvGet (history_key date email); EvGet (progress_key date email)]).
Proof.
  intros Hhistory Hge.
  apply (processNextChunk_run_completed_any _ _ _ _ _ _ Hhistory).
  by rewrite length_fmap.
Qed.

(** A call in a state that is not terminal. *)
Lemma processNextChunk_run_advance date email chunkSize σ account items :
  σ !! history_key date email = Some (VHistory (Some account) (Some (Some <$> items))) →
  let index := progress_of (σ !! progress_key date email) in
  let chunk := chunk_at items index chunkSize in
  let report := reply_report JSON_parse (groq (chunk_prompt chunk)) in
  num_ge index (Math_ceil_div (Z.of_nat (length items)) chunkSize) = false →
  run groq (processNextChunk JSON_parse date email chunkSize) σ
  = (Returned {| completed := false |},
     <[progress_key date email := VString (num_toString (num_add index (Num 1)))]>
       (<[chunk_key date email index := report]> σ),
     [EvGet (history_key date email); EvGet (progress_key date email);
      EvGroq (chunk_prompt chunk);
      EvSet (chunk_key date email index) report;
      EvSet (progress_key date email)
        (VString (num_toString (num_add index (Num 1))))]).
Proof.
  intros Hhistory index chunk report Hge.
  apply (processNextChunk_run_advance_any _ _ _ _ _ _ _ Hhistory).
  - by rewrite length_fmap.
  - apply chunk_at_fmap.
Qed.
End run_service.

(** ** The chunk-progress state machine *)

(** C1: in a state whose progress index is at least the number of chunks,
    [processNextChunk] returns [{completed: true}] and writes nothing: the
    store after the call is the store before it, so no chunk report is
    created and the progress is unchanged, and the same holds for every
    further call from that state. *)
Theorem processNextChunk_terminal_idempotent
    (JSON_parse : string → option value) (date email : string) (chunkSize : Z)
    (σ : gmap string value) (account : Account) (items : list HistoryItem.t) :
  σ !! history_key date email = Some (VHistory (Some account) (Some (Some <$> items))) →
  num_ge (progress_of (σ !! progress_key date email))
         (Math_ceil_div (Z.of_nat (length items)) chunkSize) = true →
  (∀ groq,
     run groq (processNextChunk JSON_parse date email chunkSize) σ
     = (Returned {| completed := true |}, σ,
        [EvGet (history_key date email); EvGet (progress_key date email)]))
  ∧ (∀ groqs,
       run_calls groqs (processNextChunk JSON_parse date email chunkSize) σ
       = (replicate (length groqs) (Returned {| completed := true |}), σ)).
Proof.
  intros Hhistory Hge.
  assert (∀ groq,
     run groq (processNextChunk JSON_parse date email chunkSize) σ
     = (Returned {| completed := true |}, σ,
        [EvGet (history_key date email); EvGet (progress_key date email)])) as Hcall.
  { intros groq. by eapply processNextChunk_run_completed. }
  split; [done|].
  induction groqs as [|groq groqs IH]; cbn [run_calls length replicate]; [done|].
  by rewrite Hcall, IH.
Qed.

Lemma processNextChunk_terminal_idempotent_witness :
  example_store_done !! history_key "2024-05-01" "e@x.org"
    = Some (VHistory (Some example_account) (Some (Some <$> example_history)))
  ∧ num_ge (progress_of (example_store_done !! progress_key "2024-05-01" "e@x.org"))
           (Math_ceil_div (Z.of_nat (length example_history)) 3) = true
  ∧ run groq_down (processNextChunk (JSON_parse_table []) "2024-05-01" "e@x.org" 3)
        example_store_done
    = (Returned {| completed := true |}, example_store_done,
       [EvGet (history_key "2024-05-01" "e@x.org");
        EvGet (progress_key "2024-05-01" "e@x.org")]).
Proof.
  assert (example_store_done !! history_key "2024-05-01" "e@x.org"
          = Some (VHistory (Some example_account) (Some (Some <$> example_history)))) as H1
    by (vm_compute; reflexivity).
  assert (num_ge (progress_of (example_store_done !! progress_key "2024-05-01" "e@x.org"))
            (Math_ceil_div (Z.of_nat (length example_history)) 3) = true) as H2
    by (vm_compute; reflexivity).
  split; [exact H1|]. split; [exact H2|].
  exact (proj1 (processNextChunk_terminal_idempotent (JSON_parse_table [])
                  "2024-05-01" "e@x.org" 3 example_store_done
                  example_account example_history H1 H2) groq_down).
Defined.

(** [parseInt] never gives an infinity, so neither does a stored progress. *)
Lemma progress_of_cases (progress : option value) :
  (∃ i, progress_of progress = Num i) ∨ progress_of progress = NaN.
Proof.
  unfold progress_of. destruct (truthy progress); [|by left; exists 0].
  destruct progress as [[s| | |]|]; try by right.
  unfold parseInt.
  destruct (match trim_start s with
            | String "-"%char s' => (-1, s')
            | String "+"%char s' => (1, s')
            | _ => (1, trim_start s)
            end) as [sign digits].
  destruct (parse_digits digits None) as [n|]; [left; by eexists|by right].
Qed.



(** C3 at the inputs where the code breaks it: a chunk with an entry that
    is [null].  The text of the chunk is made before the [try] block, so
    the [TypeError] of reading [item.url] leaves [analyzeChunk] whatever the
    classifier would answer, with no request made; [processNextChunk]
    passes it on to its caller after its two reads, and neither a report
    nor the progress is written. *)
Theorem analyzeChunk_null_entry_throws
    (JSON_parse : string → option value) (groq : string → groq_result)
    (date email : string) (chunkSize : Z) (σ : gmap string value)
    (account : Account) (items : list (option HistoryItem.t)) :
  σ !! history_key date email = Some (VHistory (Some account) (Some items)) →
  let index := progress_of (σ !! progress_key date email) in
  let chunk := chunk_at items index chunkSize in
  num_ge index (Math_ceil_div (Z.of_nat (length items)) chunkSize) = false →
  None ∈ chunk →
  run groq (analyzeChunk JSON_parse chunk) σ = (Thrown TypeError, σ, [])
  ∧ run groq (processNextChunk JSON_parse date email chunkSize) σ
    = (Thrown TypeError, σ,
       [EvGet (history_key date email); EvGet (progress_key date email)]).
Proof.
  intros Hhistory index chunk Hge Hnull.
  split; [by apply analyzeChunk_run_null|].
  unfold processNextChunk.
  rewrite run_bind, (getHistory_run _ _ _ _ _ _ Hhistory). cbv beta iota.
  rewrite run_bind, getChunkProgress_run. cbv beta iota.
  cbn [history]. fold index. rewrite Hge.
  rewrite run_bind, analyzeChunk_run_null; done.
Qed.

Lemma analyzeChunk_null_entry_throws_witness :
  example_store_null !! history_key "2024-05-01" "e@x.org"
    = Some (VHistory (Some example_account) (Some example_history_null))
  ∧ None ∈ chunk_at example_history_null
             (progress_of (example_store_null !! progress_key "2024-05-01" "e@x.org")) 3
  ∧ run (groq_says example_response)
      (processNextChunk (JSON_parse_table [(example_report_JSON, example_report)])
         "2024-05-01" "e@x.org" 3) example_store_null
    = (Thrown TypeError, example_store_null,
       [EvGet (history_key "2024-05-01" "e@x.org");
        EvGet (progress_key "2024-05-01" "e@x.org")]).
Proof.
  assert (example_store_null !! history_key "2024-05-01" "e@x.org"
          = Some (VHistory (Some example_account) (Some example_history_null))) as H1
    by (vm_compute; reflexivity).
  assert (num_ge (progress_of (example_store_null !! progress_key "2024-05-01" "e@x.org"))
            (Math_ceil_div (Z.of_nat (length example_history_null)) 3) = false) as H2
    by (vm_compute; reflexivity).
  assert (None ∈ chunk_at example_history_null
             (progress_of (example_store_null !! progress_key "2024-05-01" "e@x.org")) 3)
    as H3 by (vm_compute; repeat constructor).
  split; [exact H1|]. split; [exact H3|].
  exact (proj2 (analyzeChunk_null_entry_throws
                  (JSON_parse_table [(example_report_JSON, example_report)])
                  (groq_says example_response)
                  "2024-05-01" "e@x.org" 3 example_store_null
                  example_account example_history_null H1 H2 H3)).
Defined.

(** X23: on a chunk whose entries are all objects the classification
    raises nothing to its caller.  [analyzeChunk] returns a report for
    every such chunk and every reply of the classifier; when the request
    fails, or the reply has no brace match, or the match does not parse,
    the report is the neutral one, and [processNextChunk] in a state that
    is not terminal stores it at the current index, moves the progress on
    and returns [{completed: false}]. *)
Theorem analyzeChunk_absorbs_failure
    (JSON_parse : string → option value) (groq : string → groq_result)
    (date email : string) (chunkSize : Z) (σ : gmap string value)
    (account : Account) (items : list HistoryItem.t) :
  σ !! history_key date email = Some (VHistory (Some account) (Some (Some <$> items))) →
  let index := progress_of (σ !! progress_key date email) in
  let chunk := chunk_at items index chunkSize in
  num_ge index (Math_ceil_div (Z.of_nat (length items)) chunkSize) = false →
  classification_failed JSON_parse (groq (chunk_prompt chunk)) →
  run groq (analyzeChunk JSON_parse (Some <$> chunk)) σ
  = (Returned (VReport neutral_report), σ, [EvGroq (chunk_prompt chunk)])
  ∧ run groq (processNextChunk JSON_parse date email chunkSize) σ
    = (Returned {| completed := false |},
       <[progress_key date email := VString (num_toString (num_add index (Num 1)))]>
         (<[chunk_key date email index := VReport neutral_report]> σ),
       [EvGet (history_key date email); EvGet (progress_key date email);
        EvGroq (chunk_prompt chunk);
        EvSet (chunk_key date email index) (VReport neutral_report);
        EvSet (progress_key date email)
          (VString (num_toString (num_add index (Num 1))))])
  ∧ (∀ groq' (chunk' : list HistoryItem.t) σ', ∃ report,
       run groq' (analyzeChunk JSON_parse (Some <$> chunk')) σ'
       = (Returned report, σ', [EvGroq (chunk_prompt chunk')])).
Proof.
  intros Hhistory index chunk Hge Hfailed.
  assert (reply_report JSON_parse (groq (chunk_prompt chunk)) = VReport neutral_report)
    as Hneutral.
  { unfold reply_report, classification_failed in *.
    destruct (groq (chunk_prompt chunk)) as [e|completion]; [done|].
    destruct (match_braces _) as [jsonMatch|]; [|done]. by rewrite Hfailed. }
  split; [by rewrite analyzeChunk_run, Hneutral|].
  split.
  - pose proof (processNextChunk_run_advance JSON_parse groq date email chunkSize
                  σ account items Hhistory) as Hrun.
    cbv zeta in Hrun. fold index chunk in Hrun. rewrite Hneutral in Hrun.
    by apply Hrun.
  - intros groq' chunk' σ'. eexists. apply analyzeChunk_run.
Qed.

Lemma analyzeChunk_absorbs_failure_witness :
  example_store !! history_key "2024-05-01" "e@x.org"
    = Some (VHistory (Some example_account) (Some (Some <$> example_history)))
  ∧ num_ge (progress_of (example_store !! progress_key "2024-05-01" "e@x.org"))
           (Math_ceil_div (Z.of_nat (length example_history)) 3) = false
  ∧ classification_failed (JSON_parse_table [])
      (groq_down (chunk_prompt
         (chunk_at example_history
            (progress_of (example_store !! progress_key "2024-05-01" "e@x.org")) 3)))
  ∧ run groq_down
      (analyzeChunk (JSON_parse_table [])
         (Some <$> chunk_at example_history
            (progress_of (example_store !! progress_key "2024-05-01" "e@x.org")) 3))
      example_store
    = (Returned (VReport neutral_report), example_store,
       [EvGroq (chunk_prompt
          (chunk_at example_history
             (progress_of (example_store !! progress_key "2024-05-01" "e@x.org")) 3))]).
Proof.
  assert (example_store !! history_key "2024-05-01" "e@x.org"
          = Some (VHistory (Some example_account) (Some (Some <$> example_history)))) as H1
    by (vm_compute; reflexivity).
  assert (num_ge (progress_of (example_store !! progress_key "2024-05-01" "e@x.org"))
            (Math_ceil_div (Z.of_nat (length example_history)) 3) = false) as H2
    by (vm_compute; reflexivity).
  assert (classification_failed (JSON_parse_table [])
            (groq_down (chunk_prompt
               (chunk_at example_history
                  (progress_of (example_store !! progress_key "2024-05-01" "e@x.org"))
                  3)))) as H3 by exact I.
  split; [exact H1|]. split; [exact H2|]. split; [exact H3|].
  exact (proj1 (analyzeChunk_absorbs_failure (JSON_parse_table []) groq_down
                  "2024-05-01" "e@x.org" 3 example_store
                  example_account example_history H1 H2 H3)).
Defined.

(** C6, as the code has it: a chunk size that is zero or negative is not
    rejected.  With the history in the store the call raises no error; for
    chunk size 0 the number of chunks is [Infinity] or [NaN], no state is
    terminal, and the call classifies the empty chunk, stores its report at
    the current index, moves the progress on and returns
    [{completed: false}]; for a negative chunk size the number of chunks is
    at most 0, and at every progress index that is a natural number the
    call returns [{completed: true}] and writes nothing. *)
Theorem processNextChunk_nonpositive_chunkSize
    (JSON_parse : string → option value) (groq : string → groq_result)
    (date email : string) (chunkSize : Z) (σ : gmap string value)
    (account : Account) (items : list HistoryItem.t) :
  chunkSize ≤ 0 →
  σ !! history_key date email = Some (VHistory (Some account) (Some (Some <$> items))) →
  let call := processNextChunk JSON_parse date email chunkSize in
  let index := progress_of (σ !! progress_key date email) in
  let report := reply_report JSON_parse (groq (chunk_prompt [])) in
  (∃ result, (run groq call σ).1.1 = Returned result)
  ∧ (chunkSize = 0 →
     run groq call σ
     = (Returned {| completed := false |},
        <[progress_key date email := VString (num_toString (num_add index (Num 1)))]>
          (<[chunk_key date email index := report]> σ),
        [EvGet (history_key date email); EvGet (progress_key date email);
         EvGroq (chunk_prompt []);
         EvSet (chunk_key date email index) report;
         EvSet (progress_key date email)
           (VString (num_toString (num_add index (Num 1))))]))
  ∧ (chunkSize < 0 → (∃ i, index = Num i ∧ 0 ≤ i) →
     run groq call σ
     = (Returned {| completed := true |}, σ,
        [EvGet (history_key date email); EvGet (progress_key date email)])).
Proof.
  intros Hsize Hhistory call index report.
  split.
  { destruct (num_ge index (Math_ceil_div (Z.of_nat (length items)) chunkSize))
      eqn:Hge.
    - exists {| completed := true |}. subst call.
      by rewrite (processNextChunk_run_completed _ _ _ _ _ _ _ _ Hhistory Hge).
    - exists {| completed := false |}. subst call.
      by rewrite (processNextChunk_run_advance _ _ _ _ _ _ _ _ Hhistory Hge). }
  split.
  - intros ->.
    assert (num_ge index (Math_ceil_div (Z.of_nat (length items)) 0) = false) as Hge.
    { unfold Math_ceil_div. simpl.
      destruct (progress_of_cases (σ !! progress_key date email)) as [[i Hi]|Hi];
        fold index in Hi; rewrite Hi;
        destruct (Z.eqb_spec (Z.of_nat (length items)) 0); try done;
        destruct (Z.ltb_spec 0 (Z.of_nat (length items))); try done; lia. }
    assert (chunk_at items index 0 = []) as Hchunk.
    { unfold chunk_at, slice.
      destruct (progress_of_cases (σ !! progress_key date email)) as [[i Hi]|Hi];
        fold index in Hi; rewrite Hi; simpl;
        rewrite ?Z.mul_0_r, ?Z.add_0_r, ?Z.sub_diag; done. }
    subst call report.
    rewrite (processNextChunk_run_advance _ _ _ _ _ _ _ _ Hhistory Hge).
    fold index. by rewrite Hchunk.
  - intros Hneg (i & Hi & Hnat). subst call.
    apply processNextChunk_run_completed with account items; [done|].
    fold index. rewrite Hi. unfold Math_ceil_div.
    destruct (Z.eqb_spec chunkSize 0) as [->|_]; [lia|].
    simpl. apply bool_decide_eq_true.
    assert (0 ≤ (- Z.of_nat (length items)) `div` chunkSize); [|lia].
    rewrite <- (Z.opp_involutive chunkSize), Z.div_opp_opp by lia.
    apply Z.div_pos; lia.
Qed.

Lemma processNextChunk_nonpositive_chunkSize_witness :
  0 ≤ 0
  ∧ example_store !! history_key "2024-05-01" "e@x.org"
    = Some (VHistory (Some example_account) (Some (Some <$> example_history)))
  ∧ ∃ result,
      (run groq_down (processNextChunk (JSON_parse_table []) "2024-05-01" "e@x.org" 0)
         example_store).1.1 = Returned result.
Proof.
  assert (example_store !! history_key "2024-05-01" "e@x.org"
          = Some (VHistory (Some example_account) (Some (Some <$> example_history)))) as H1
    by (vm_compute; reflexivity).
  split; [exact (Z.le_refl 0)|]. split; [exact H1|].
  exact (proj1 (processNextChunk_nonpositive_chunkSize (JSON_parse_table [])
                  groq_down "2024-05-01" "e@x.org" 0 example_store
                  example_account example_history (Z.le_refl 0) H1)).
Defined.

(** C6, as the claim states it, fails: with chunk size 0 and with chunk
    size -3 the call returns normally, and no error reaches the caller. *)
Lemma processNextChunk_no_InvalidArgument :
  (run groq_down (processNextChunk (JSON_parse_table []) "2024-05-01" "e@x.org" 0)
     example_store).1.1 = Returned {| completed := false |}
  ∧ (run groq_down (processNextChunk (JSON_parse_table []) "2024-05-01" "e@x.org" (-3))
       example_store).1.1 = Returned {| completed := true |}.
Proof. split; vm_compute; reflexivity. Qed.

(** ** Finalization *)

(** C9: when there is no chunk report at index 0, [finalizeDailyReport]
    does not fail: the loop stops at its first read, the call returns the
    neutral report, and it writes nothing, so the key of the daily report
    holds what it held before. *)
Theorem finalizeDailyReport_no_reports
    (new_URL : string → option URL) (groq : string → groq_result)
    (date email : string) (σ : gmap string value) (fuel : nat) :
  truthy (σ !! chunk_key date email (Num 0)) = false →
  let call := finalizeDailyReport new_URL (S fuel) date email in
  run groq call σ
  = (Returned neutral_report, σ, [EvGet (chunk_key date email (Num 0))])
  ∧ writes (run groq call σ).2 = []
  ∧ (run groq call σ).1.2 !! report_key date email = σ !! report_key date email.
Proof.
  intros Hnone call.
  assert (run groq call σ
          = (Returned neutral_report, σ, [EvGet (chunk_key date email (Num 0))]))
    as Hrun.
  { subst call. unfold finalizeDailyReport. rewrite run_bind.
    cbn [collect_reports]. unfold redisService.get, mbind, prog_bind.
    cbn [bind run]. rewrite Hnone.
    by destruct (σ !! chunk_key date email (Num 0)). }
  by rewrite Hrun.
Qed.

Lemma finalizeDailyReport_no_reports_witness :
  truthy (example_store !! chunk_key "2024-05-01" "e@x.org" (Num 0)) = false
  ∧ run groq_down (finalizeDailyReport http_URL 1 "2024-05-01" "e@x.org") example_store
    = (Returned neutral_report, example_store,
       [EvGet (chunk_key "2024-05-01" "e@x.org" (Num 0))]).
Proof.
  assert (truthy (example_store !! chunk_key "2024-05-01" "e@x.org" (Num 0)) = false)
    as H1 by (vm_compute; reflexivity).
  split; [exact H1|].
  exact (proj1 (finalizeDailyReport_no_reports http_URL groq_down
                  "2024-05-01" "e@x.org" example_store 0 H1)).
Defined.

(** ** Reading the reply of the classifier *)

Lemma after_first_lbrace_Some s rest :
  after_first_lbrace s = Some rest →
  ∃ pre, s = pre +:+ String "{"%char rest ∧ occurs "{"%char pre = false.
Proof.
  revert rest. induction s as [|c s IH]; intros rest; simpl; [done|].
  destruct (Ascii.eqb_spec c "{"%char) as [->|Hc].
  - intros [= ->]. by exists EmptyString.
  - intros Hrest. destruct (IH _ Hrest) as (pre & -> & Hpre).
    exists (String c pre). simpl. split; [done|].
    rewrite Hpre. by destruct (Ascii.eqb_spec c "{"%char).
Qed.

Lemma after_first_lbrace_None s :
  after_first_lbrace s = None → occurs "{"%char s = false.
Proof.
  induction s as [|c s IH]; simpl; [done|].
  destruct (c =? "{")%char; [done|]. exact IH.
Qed.

Lemma upto_last_rbrace_Some s body :
  upto_last_rbrace s = Some body →
  ∃ inner post, body = inner +:+ "}" ∧ s = body +:+ post
                ∧ occurs "}"%char post = false.
Proof.
  revert body. induction s as [|c s IH]; intros body; simpl; [done|].
  destruct (upto_last_rbrace s) as [p|] eqn:Hs.
  - intros [= <-]. destruct (IH _ eq_refl) as (inner & post & -> & Hpost & Hocc).
    exists (String c inner), post. simpl. by rewrite Hpost at 1.
  - destruct (Ascii.eqb_spec c "}"%char) as [->|Hc]; [|done].
    intros [= <-]. exists EmptyString, s. simpl. split; [done|]. split; [done|].
    clear IH. induction s as [|d s IHs]; simpl in *; [done|].
    destruct (upto_last_rbrace s); [done|].
    destruct (d =? "}")%char; [done|]. by apply IHs.
Qed.

Lemma upto_last_rbrace_None s :
  upto_last_rbrace s = None → occurs "}"%char s = false.
Proof.
  induction s as [|c s IH]; simpl; [done|].
  destruct (upto_last_rbrace s); [done|].
  destruct (c =? "}")%char; [done|]. by apply IH.
Qed.

Lemma occurs_app c s1 s2 : occurs c (s1 +:+ s2) = occurs c s1 || occurs c s2.
Proof.
  induction s1 as [|d s1 IH]; simpl; [done|]. rewrite IH. by destruct (d =? c)%char.
Qed.

(** The text behind the first opening brace is the same under every way of
    cutting the text at an opening brace, up to a prefix. *)
Lemma first_lbrace_suffix pre0 rest pre tail :
  occurs "{"%char pre0 = false →
  pre0 +:+ String "{"%char rest = pre +:+ String "{"%char tail →
  ∃ x, rest = x +:+ tail.
Proof.
  revert pre. induction pre0 as [|c pre0 IH]; intros pre Hocc Heq; simpl in *.
  - destruct pre as [|d pre]; simpl in Heq.
    + injection Heq as ->. by exists EmptyString.
    + injection Heq as _ ->. exists (pre +:+ "{").
      by rewrite string_app_assoc.
  - destruct (Ascii.eqb_spec c "{"%char) as [->|Hc]; [done|].
    destruct pre as [|d pre]; simpl in Heq; [by injection Heq|].
    injection Heq as _ Heq. by apply (IH pre).
Qed.

(** C7, as the code has it: the text that is parsed is the brace match of
    the reply, which runs from the first opening brace of the reply to its
    last closing brace; when no closing brace follows an opening one there
    is no match.  The report of [analyzeChunk] is what [JSON.parse] makes of
    the match, and the neutral report when the request was rejected, there
    is no match, or the match does not parse. *)
Theorem analyzeChunk_parses_greedy_match
    (JSON_parse : string → option value) (groq : string → groq_result)
    (chunk : list HistoryItem.t) (σ : gmap string value) :
  run groq (analyzeChunk JSON_parse (Some <$> chunk)) σ
  = (Returned
       match groq (chunk_prompt chunk) with
       | Rejected _ => VReport neutral_report
       | Resolved completion =>
           match match_braces (response_content completion) with
           | Some jsonMatch => default (VReport neutral_report) (JSON_parse jsonMatch)
           | None => VReport neutral_report
           end
       end,
     σ, [EvGroq (chunk_prompt chunk)])
  ∧ ∀ content,
      match match_braces content with
      | Some jsonMatch =>
          ∃ pre inner post,
            content = pre +:+ jsonMatch +:+ post
            ∧ jsonMatch = "{" +:+ inner +:+ "}"
            ∧ occurs "{"%char pre = false
            ∧ occurs "}"%char post = false
      | None =>
          ∀ pre post, content = pre +:+ "{" +:+ post → occurs "}"%char post = false
      end.
Proof.
  split; [apply analyzeChunk_run|].
  intros content. unfold match_braces.
  destruct (after_first_lbrace content) as [rest|] eqn:Hrest.
  - apply after_first_lbrace_Some in Hrest as (pre0 & -> & Hpre0).
    destruct (upto_last_rbrace rest) as [body|] eqn:Hbody.
    + apply upto_last_rbrace_Some in Hbody as (inner & post & -> & -> & Hpost).
      exists pre0, inner, post. split; [reflexivity|]. split; [reflexivity|]. done.
    + apply upto_last_rbrace_None in Hbody.
      intros pre post Heq. simpl in Heq.
      destruct (first_lbrace_suffix _ _ _ _ Hpre0 Heq) as [x ->].
      rewrite occurs_app in Hbody. by apply orb_false_elim in Hbody as [_ ?].
  - apply after_first_lbrace_None in Hrest.
    intros pre post ->. rewrite occurs_app in Hrest.
    apply orb_false_elim in Hrest as [_ Hrest]. simpl in Hrest. done.
Qed.

(** C7, as the claim states it, fails.  The first balanced substring of
    this reply is the JSON text of a report, which parses, but the brace
    match runs on to the last closing brace of the reply, takes in the prose
    behind the text, does not parse, and [analyzeChunk] returns the neutral
    report. *)
Lemma match_braces_not_first_balanced :
  first_balanced example_response = Some example_report_JSON
  ∧ JSON_parse_table [(example_report_JSON, example_report)] example_report_JSON
    = Some (VReport example_report)
  ∧ match_braces example_response
    = Some (example_report_JSON +:+ " (an empty object would be {}")
  ∧ JSON_parse_table [(example_report_JSON, example_report)]
      (example_report_JSON +:+ " (an empty object would be {}") = None
  ∧ run (groq_says example_response)
      (analyzeChunk (JSON_parse_table [(example_report_JSON, example_report)])
         (Some <$> example_history)) ∅
    = (Returned (VReport neutral_report), ∅, [EvGroq (chunk_prompt example_history)])
  ∧ totalVisits example_report ≠ totalVisits neutral_report.
Proof. repeat split; try (vm_compute; reflexivity). discriminate. Qed.

(** ** The loop of [finalizeDailyReport] ends *)

Lemma chunk_key_inj date email i j :
  chunk_key date email (Num i) = chunk_key date email (Num j) → i = j.
Proof.
  unfold chunk_key. intros Heq.
  do 5 apply (inj (String.app _)) in Heq.
  simpl in Heq. by apply pretty_Z_inj in Heq.
Qed.

Section finalize_terminates.
Variable new_URL : string → option URL.
Variable groq : string → groq_result.

(** A loop that was cut has found a document at every index it read. *)
Lemma collect_reports_Cut fuel date email chunkIndex reports σ :
  (run groq (collect_reports fuel date email chunkIndex reports) σ).1.1 = Cut →
  ∀ j, chunkIndex ≤ j < chunkIndex + Z.of_nat fuel →
       is_Some (σ !! chunk_key date email (Num j)).
Proof.
  revert chunkIndex reports.
  induction fuel as [|fuel IH]; intros chunkIndex reports Hcut j Hj; [lia|].
  cbn [collect_reports] in Hcut.
  unfold redisService.get, mbind, prog_bind in Hcut. cbn [bind run] in Hcut.
  destruct (σ !! chunk_key date email (Num chunkIndex)) as [v|] eqn:Hv; [|done].
  destruct (truthy (Some v)); [|done]. cbn [negb] in Hcut.
  destruct (run groq (collect_reports fuel date email (chunkIndex + 1)
                        (reports ++ [v])) σ) as [[o σ'] tr] eqn:Hrun.
  simpl in Hcut. subst o.
  destruct (decide (j = chunkIndex)) as [->|Hne]; [by rewrite Hv|].
  apply (IH (chunkIndex + 1) (reports ++ [v])); [by rewrite Hrun|lia].
Qed.

(** The store holds finitely many documents, so the loop of lines 178-186
    reaches a missing index: with one round more than the store has keys
    the loop is not cut, and [finalizeDailyReport] returns or throws. *)
Lemma finalizeDailyReport_terminates date email σ :
  (run groq (finalizeDailyReport new_URL (S (size σ)) date email) σ).1.1 ≠ Cut.
Proof.
  unfold finalizeDailyReport. rewrite run_bind.
  destruct (run groq (collect_reports (S (size σ)) date email 0 []) σ)
    as [[[reports|e| |] σ'] tr] eqn:Hrun; [| done | | done].
  - case_bool_decide; [done|].
    destruct (mapM as_report reports); [|by destruct (existsb _ _)].
    unfold redisService.set, mbind, prog_bind. by cbn [bind run].
  - exfalso.
    pose proof (collect_reports_Cut (S (size σ)) date email 0 [] σ) as Hall.
    rewrite Hrun in Hall. specialize (Hall eq_refl).
    set (keys := (λ j : nat, chunk_key date email (Num (Z.of_nat j)))
                   <$> seq 0 (S (size σ))).
    assert (NoDup keys) as Hnd.
    { apply NoDup_fmap_2_strong; [|apply NoDup_seq].
      intros i j _ _ Heq. apply chunk_key_inj in Heq. lia. }
    assert (keys ⊆+ (map_to_list σ).*1) as Hsub.
    { apply NoDup_submseteq; [done|]. intros key Hkey.
      apply list_elem_of_fmap in Hkey as (j & -> & Hj).
      apply elem_of_seq in Hj.
      destruct (Hall (Z.of_nat j)) as [v Hv]; [lia|].
      apply list_elem_of_fmap. exists (chunk_key date email (Num (Z.of_nat j)), v).
      split; [done|]. by apply elem_of_map_to_list. }
    apply submseteq_length in Hsub.
    subst keys. rewrite !length_fmap, length_seq, length_map_to_list in Hsub. lia.
Qed.
End finalize_terminates.

(** ** The example job of section 8 of the specification *)

(** Seven history entries and chunk size 3: three calls return
    [{completed: false}], every later call returns [{completed: true}], and
    the store then holds the reports of the indices 0, 1 and 2, the progress
    3, and no report at index 3. *)
Example processNextChunk_spec_example :
  let '(outcomes, σ) :=
    run_calls [groq_down; groq_says example_response; groq_down; groq_down; groq_down]
      (processNextChunk (JSON_parse_table []) "2024-05-01" "e@x.org" 3)
      example_store in
  outcomes
  = [Returned {| completed := false |}; Returned {| completed := false |};
     Returned {| completed := false |}; Returned {| completed := true |};
     Returned {| completed := true |}]
  ∧ (λ i, σ !! chunk_key "2024-05-01" "e@x.org" (Num i)) <$> [0; 1; 2; 3]
    = [Some (VReport neutral_report); Some (VReport neutral_report);
       Some (VReport neutral_report); None]
  ∧ σ !! progress_key "2024-05-01" "e@x.org" = Some (VString "3").
Proof. vm_compute. repeat split. Qed.

(** ** The progress counter is read back as it was written *)

Lemma digit_value_pretty_N_char (d : N) :
  (d < 10)%N → digit_value (pretty_N_char d) = Some (Z.of_N d).
Proof.
  intros Hd.
  assert (d = 0 ∨ d = 1 ∨ d = 2 ∨ d = 3 ∨ d = 4 ∨ d = 5 ∨ d = 6 ∨ d = 7
          ∨ d = 8 ∨ d = 9)%N as Hcases by lia.
  repeat (destruct Hcases as [->|Hcases]; [reflexivity|]). by subst d.
Qed.

Lemma parse_digits_pretty_N_go (x : N) (s : string) :
  parse_digits (pretty_N_go x s) None
  = parse_digits s (if decide (x = 0%N) then None else Some (Z.of_N x)).
Proof.
  revert s. induction (N.lt_wf_0 x) as [x _ IH]; intros s.
  destruct (decide (x = 0%N)) as [->|Hx]; [done|].
  rewrite pretty_N_go_step by lia.
  rewrite IH by (apply N.div_lt; lia). cbn [parse_digits].
  rewrite digit_value_pretty_N_char by (by apply N.mod_lt).
  f_equal. f_equal.
  pose proof (N.div_mod x 10 ltac:(done)) as Hdiv.
  case_decide as Hq; simpl; [rewrite Hq in Hdiv|]; lia.
Qed.

(** The text of a positive number starts with a digit, which is neither
    white space nor a sign. *)
Lemma pretty_N_go_head (x : N) (s : string) :
  (0 < x)%N → ∃ d s', (d < 10)%N ∧ pretty_N_go x s = String (pretty_N_char d) s'.
Proof.
  revert s. induction (N.lt_wf_0 x) as [x _ IH]; intros s Hx.
  rewrite pretty_N_go_step by done.
  destruct (decide (x `div` 10 = 0)%N) as [Hq|Hq].
  - rewrite Hq, pretty_N_go_0. eexists _, _. split; [|done]. by apply N.mod_lt.
  - apply IH; [apply N.div_lt; lia|]. by apply N.neq_0_lt_0.
Qed.

(** A character of ASCII that is no white space starts no white space of
    more bytes either. *)
Lemma trim_start_plain (c : ascii) (s : string) :
  is_whitespace c = false → (N_of_ascii c < 128)%N →
  trim_start (String c s) = String c s.
Proof.
  intros Hws Hlt. destruct c as [b0 b1 b2 b3 b4 b5 b6 b7].
  destruct b7.
  { exfalso. destruct b0, b1, b2, b3, b4, b5, b6; vm_compute in Hlt; done. }
  destruct b0, b1, b2, b3, b4, b5, b6; try discriminate Hws;
    destruct s as [|c2 [|c3 s3]]; reflexivity.
Qed.

Lemma parseInt_digits_head (d : N) (s : string) :
  (d < 10)%N →
  parseInt (String (pretty_N_char d) s)
  = match parse_digits (String (pretty_N_char d) s) None with
    | Some n => Num n
    | None => NaN
    end.
Proof.
  intros Hd.
  assert (d = 0 ∨ d = 1 ∨ d = 2 ∨ d = 3 ∨ d = 4 ∨ d = 5 ∨ d = 6 ∨ d = 7
          ∨ d = 8 ∨ d = 9)%N as Hcases by lia.
  unfold parseInt.
  repeat (destruct Hcases as [->|Hcases];
    [rewrite trim_start_plain by (by vm_compute); cbn [pretty_N_char];
     by destruct (parse_digits _ None) as [[| |]|]|]).
  subst d. rewrite trim_start_plain by (by vm_compute). cbn [pretty_N_char].
  by destruct (parse_digits _ None) as [[| |]|].
Qed.

Lemma parseInt_pretty_pos (p : positive) : parseInt (pretty (N.pos p)) = Num (Z.pos p).
Proof.
  unfold pretty, pretty_N. rewrite decide_False by done.
  destruct (pretty_N_go_head (N.pos p) "") as (d & s' & Hd & Heq); [lia|].
  rewrite Heq, parseInt_digits_head, <- Heq by done.
  rewrite parse_digits_pretty_N_go. by rewrite decide_False by done.
Qed.

(** [parseInt(n.toString(), 10)] is [n] for every integer [n]. *)
Lemma parseInt_num_toString (i : Z) : parseInt (num_toString (Num i)) = Num i.
Proof.
  destruct i as [|p|p]; cbn [num_toString pretty pretty_Z].
  - reflexivity.
  - apply parseInt_pretty_pos.
  - change (pretty p) with (pretty (N.pos p)).
    pose proof (parseInt_pretty_pos p) as Hpos.
    unfold pretty, pretty_N in *. rewrite decide_False in * by done.
    destruct (pretty_N_go_head (N.pos p) "") as (d & s' & Hd & Heq); [lia|].
    rewrite Heq in *. rewrite parseInt_digits_head in Hpos by done.
    unfold parseInt.
    change ("-" +:+ String (pretty_N_char d) s')
      with (String "-"%char (String (pretty_N_char d) s')).
    rewrite trim_start_plain by (by vm_compute).
    destruct (parse_digits (String (pretty_N_char d) s') None) as [n|]; [|done].
    injection Hpos as ->. done.
Qed.

Lemma progress_of_written (i : Z) :
  progress_of (Some (VString (num_toString (Num i)))) = Num i.
Proof.
  unfold progress_of, truthy.
  destruct (String.eqb_spec (num_toString (Num i)) "") as [Hempty|_].
  - pose proof (parseInt_num_toString i) as Hparse. by rewrite Hempty in Hparse.
  - apply parseInt_num_toString.
Qed.

(** After a call that is not terminal at index [i] the next call reads the
    index [i + 1]: the progress goes up by one with every processed chunk. *)
Lemma processNextChunk_next_index JSON_parse groq date email chunkSize σ account items i :
  σ !! history_key date email = Some (VHistory (Some account) (Some (Some <$> items))) →
  progress_of (σ !! progress_key date email) = Num i →
  num_ge (Num i) (Math_ceil_div (Z.of_nat (length items)) chunkSize) = false →
  let σ' := (run groq (processNextChunk JSON_parse date email chunkSize) σ).1.2 in
  progress_of (σ' !! progress_key date email) = Num (i + 1)
  ∧ σ' !! history_key date email = σ !! history_key date email.
Proof.
  intros Hhistory Hindex Hge σ'. subst σ'.
  pose proof (processNextChunk_run_advance JSON_parse groq date email chunkSize
                σ account items Hhistory) as Hrun.
  cbv zeta in Hrun. rewrite Hindex in Hrun. rewrite (Hrun Hge). cbn [fst snd].
  split.
  - rewrite lookup_insert_eq. apply (progress_of_written (i + 1)).
  - rewrite lookup_insert_ne by apply progress_key_ne_history_key.
    by rewrite lookup_insert_ne by apply chunk_key_ne_history_key.
Qed.

(** X22: what [storeHistoryWithAccount] stores is what [getHistory] returns
    for the date and the address of the account, whatever was stored for
    them before. *)
Lemma storeHistoryWithAccount_getHistory groq date account data σ :
  let σ' := (run groq (storeHistoryWithAccount date account data) σ).1.2 in
  run groq (getHistory date (email account)) σ'
  = (Returned {| account := account; history := data |}, σ',
     [EvGet (history_key date (email account))]).
Proof.
  intros σ'. apply getHistory_run. subst σ'. simpl. apply lookup_insert_eq.
Qed.

(** * Further properties of the service *)

(** ** The aggregator: categories, most frequent entries, failed chunks *)

(** The first element of a stably sorted array is the first of the largest
    elements of the array. *)
Lemma head_Array_sort_first_max {A} (key : A → Z) (l : list A) :
  match head (Array_sort (λ a b, key b - key a) l) with
  | Some e =>
      ∃ before after,
        l = before ++ e :: after
        ∧ Forall (λ x, key x < key e) before
        ∧ Forall (λ x, key x ≤ key e) after
  | None => l = []
  end.
Proof.
  induction l as [|x l IH]; [done|].
  cbn [Array_sort foldr]. fold (Array_sort (λ a b, key b - key a) l).
  destruct (Array_sort (λ a b, key b - key a) l) as [|y sorted] eqn:Hsorted;
    cbn [head sort_insert] in *.
  - subst l. exists [], []. by repeat split.
  - destruct IH as (before & after & -> & Hbefore & Hafter).
    destruct (Z.leb_spec (key y - key x) 0) as [Hle|Hgt]; cbn [head].
    + exists [], (before ++ y :: after). split; [done|]. split; [done|].
      apply Forall_app. split; [|constructor].
      * eapply Forall_impl; [exact Hbefore|]. simpl. lia.
      * lia.
      * eapply Forall_impl; [exact Hafter|]. simpl. lia.
    + exists (x :: before), after. split; [done|]. split; [|done].
      constructor; [lia|done].
Qed.

Section aggregator_more.
Variable new_URL : string → option URL.








(** X2: when no category of the reports has the name of a member of
    [Object.prototype], [mostFrequentCategory] is the first of the
    categories of the aggregate, in the order in which the object
    enumerates them, with the largest count: every category before it has a
    smaller count, none has a larger one; it is [General] with frequency 0
    when the aggregate has no category. *)
Theorem aggregateReports_mostFrequentCategory (reports : list DailyReport) :
  Forall (λ key, key ∉ Object_prototype_names) (all_categories reports).*1 →
  let aggregated := aggregateReports new_URL reports in
  match categories aggregated with
  | [] =>
      mostFrequentCategory aggregated = {| mf_category := "General"; frequency := 0 |}
  | _ :: _ =>
      ∃ before entry after,
        categories aggregated = before ++ entry :: after
        ∧ mostFrequentCategory aggregated
          = {| mf_category := entry.1; frequency := entry.2 |}
        ∧ Forall (λ other, other.2 < entry.2) before
        ∧ Forall (λ other, other.2 ≤ entry.2) after
  end.
Proof.
  intros _ aggregated. subst aggregated. unfold aggregateReports.
  cbn [categories mostFrequentCategory].
  pose proof (head_Array_sort_first_max (λ entry : string * Z, entry.2)
                (agg_categories (aggregation new_URL reports))) as Hhead.
  destruct (head (Array_sort _ (agg_categories (aggregation new_URL reports))))
    as [entry|].
  - destruct Hhead as (before & after & Heq & Hbefore & Hafter).
    rewrite Heq. destruct (before ++ entry :: after) eqn:Hcats;
      [by destruct before|].
    rewrite <- Hcats. by exists before, entry, after.
  - by rewrite Hhead.
Qed.

Lemma head_take {A} (l : list A) n : head (take (S n) l) = head l.
Proof. by destruct l. Qed.

(** X3: [mostFrequentSite] is the first entry of [mostVisitedSites], and it
    is the first of the site groups with the largest number of visits, in
    the order in which the groups were first seen; it is the empty site of
    category [General] when there is no group. *)
Theorem aggregateReports_mostFrequentSite (reports : list DailyReport) :
  let aggregated := aggregateReports new_URL reports in
  let groups := site_groups (agg_siteVisitMap (aggregation new_URL reports)) in
  match groups with
  | [] =>
      mostVisitedSites aggregated = []
      ∧ mostFrequentSite aggregated
        = {| url := ""; category := "General"; visits := 0 |}
  | _ :: _ =>
      ∃ before site after,
        groups = before ++ site :: after
        ∧ head (mostVisitedSites aggregated) = Some site
        ∧ mostFrequentSite aggregated = site
        ∧ Forall (λ other, visits other < visits site) before
        ∧ Forall (λ other, visits other ≤ visits site) after
  end.
Proof.
  intros aggregated groups.
  assert (mostFrequentSite aggregated
          = match head (mostVisitedSites aggregated) with
            | Some site => site
            | None => {| url := ""; category := "General"; visits := 0 |}
            end) as Hsite.
  { subst aggregated. unfold aggregateReports. cbn [mostFrequentSite mostVisitedSites].
    by destruct (slice _ _ _) as [|[] ?]. }
  assert (head (mostVisitedSites aggregated)
          = head (Array_sort (λ a b, visits b - visits a) groups)) as Hhead.
  { subst aggregated. rewrite aggregateReports_mostVisitedSites. apply head_take. }
  pose proof (head_Array_sort_first_max visits groups) as Hmax.
  rewrite Hsite, Hhead.
  destruct (head (Array_sort _ groups)) as [site|] eqn:Hsorted.
  - destruct Hmax as (before & after & Heq & Hbefore & Hafter).
    rewrite Heq. destruct (before ++ site :: after) eqn:Hgroups;
      [by destruct before|].
    rewrite <- Hgroups. by exists before, site, after.
  - rewrite Hmax. split; [|done].
    subst aggregated. rewrite aggregateReports_mostVisitedSites. fold groups.
    by rewrite Hmax.
Qed.

Lemma foldl_add_site_category sites siteVisitMap key :
  sv_category <$> Map.get (foldl (add_site new_URL) siteVisitMap sites) key
  = match last (filter (λ site, site_key new_URL site = key) sites) with
    | Some site => Some (category site)
    | None => sv_category <$> Map.get siteVisitMap key
    end.
Proof.
  revert siteVisitMap.
  induction sites as [|site sites IH]; intros siteVisitMap; simpl; [done|].
  rewrite IH, add_site_get, filter_cons.
  destruct (decide (site_key new_URL site = key)) as [Hk|Hk]; [|done].
  rewrite last_cons. by destruct (last _).
Qed.

(** X4: the category of a site group is the category of the last site of
    its key among the sites of all the reports: the last write wins. *)
Theorem aggregateReports_group_category_last (reports : list DailyReport) :
  Forall (λ group,
            ∃ site,
              last (filter (λ site, site_key new_URL site = url group)
                      (all_sites reports)) = Some site
              ∧ category group = category site)
         (site_groups (agg_siteVisitMap (aggregation new_URL reports))).
Proof.
  apply Forall_forall. intros group Hgroup.
  unfold site_groups in Hgroup.
  apply list_elem_of_fmap in Hgroup as ([key sv] & -> & Hin). simpl.
  pose proof (first_seen_NoDup (site_key new_URL <$> all_sites reports)) as Hnd.
  rewrite <- aggregation_keys in Hnd.
  pose proof (Map_get_elem_of _ _ _ Hnd Hin) as Hget.
  pose proof (foldl_add_site_category (all_sites reports) [] key) as Hlast.
  unfold aggregation in Hget. rewrite aggregation_siteVisitMap in Hget.
  simpl in Hget. rewrite Hget in Hlast. simpl in Hlast.
  destruct (last _) as [site|]; [|done].
  exists site. split; [done|]. by injection Hlast.
Qed.

(** The running total is a double at every round of the loop. *)
Lemma aggregation_total_double reports agg :
  round_double (agg_totalVisits agg) = agg_totalVisits agg →
  round_double (agg_totalVisits (foldl (add_report new_URL) agg reports))
  = agg_totalVisits (foldl (add_report new_URL) agg reports).
Proof.
  revert agg. induction reports as [|report reports IH]; intros agg Hagg; [done|].
  simpl. apply IH. simpl. apply round_double_idem.
Qed.

Lemma add_report_neutral agg :
  round_double (agg_totalVisits agg) = agg_totalVisits agg →
  add_report new_URL agg neutral_report = agg.
Proof.
  intros Hagg. destruct agg as [total cats sites]. unfold add_report. simpl in *.
  f_equal. unfold double_add. by rewrite Z.add_0_r.
Qed.

(** X5: a neutral report, which is what a failed classification leaves for
    its chunk, changes nothing in the aggregate, wherever it stands among
    the reports. *)
Theorem aggregateReports_neutral_unit (before after : list DailyReport) :
  aggregateReports new_URL (before ++ neutral_report :: after)
  = aggregateReports new_URL (before ++ after).
Proof.
  unfold aggregateReports, aggregation.
  rewrite !foldl_app. cbn [foldl].
  by rewrite add_report_neutral by by apply aggregation_total_double.
Qed.
End aggregator_more.


Lemma aggregateReports_mostFrequentCategory_witness :
  Forall (λ key, key ∉ Object_prototype_names)
    (all_categories [spec_report_1; spec_report_2]).*1
  ∧ match categories (aggregateReports http_URL [spec_report_1; spec_report_2]) with
    | [] => True
    | _ :: _ =>
        ∃ before entry after,
          categories (aggregateReports http_URL [spec_report_1; spec_report_2])
          = before ++ entry :: after
          ∧ mostFrequentCategory
              (aggregateReports http_URL [spec_report_1; spec_report_2])
            = {| mf_category := entry.1; frequency := entry.2 |}
          ∧ Forall (λ other, other.2 < entry.2) before
          ∧ Forall (λ other, other.2 ≤ entry.2) after
    end.
Proof.
  assert (Forall (λ key, key ∉ Object_prototype_names)
            (all_categories [spec_report_1; spec_report_2]).*1) as H1
    by (apply (bool_decide_unpack _); vm_compute; exact I).
  split; [exact H1|].
  exact (aggregateReports_mostFrequentCategory http_URL _ H1).
Defined.

(** The order in which a plain object enumerates its properties: a category
    named like an array index stands in front of the others, and is the most
    frequent one when it has the largest count together with another. *)
Example aggregateReports_index_names_first :
  let aggregated :=
    aggregateReports http_URL
      [{| totalVisits := 5;
          categories := [("News", 5)];
          mostVisitedSites := [];
          mostFrequentCategory := {| mf_category := "News"; frequency := 5 |};
          mostFrequentSite := {| url := ""; category := "General"; visits := 0 |} |};
       {| totalVisits := 5;
          categories := [("2024", 5)];
          mostVisitedSites := [];
          mostFrequentCategory := {| mf_category := "2024"; frequency := 5 |};
          mostFrequentSite := {| url := ""; category := "General"; visits := 0 |} |}] in
  categories aggregated = [("2024", 5); ("News", 5)]
  ∧ mostFrequentCategory aggregated = {| mf_category := "2024"; frequency := 5 |}.
Proof. vm_compute. by split. Qed.

(** ** One call of [processNextChunk] *)

Lemma getHistory_run_missing groq date email σ :
  history_incomplete (σ !! history_key date email) →
  run groq (getHistory date email) σ
  = (Thrown (Error ("No history found for the date: " +:+ date
                      +:+ " and email: " +:+ email)),
     σ, [EvGet (history_key date email)]).
Proof.
  intros Hmissing. unfold getHistory. cbn [redisService.get mbind prog_bind bind run].
  unfold redisService.get, mbind, prog_bind. cbn [bind run].
  destruct (σ !! history_key date email) as [[s|[a|] [h|]|r|fields]|]; try done.
  simpl in Hmissing. by rewrite Hmissing.
Qed.

Lemma processNextChunk_run_missing JSON_parse groq date email chunkSize σ :
  history_incomplete (σ !! history_key date email) →
  run groq (processNextChunk JSON_parse date email chunkSize) σ
  = (Thrown (Error ("No history found for the date: " +:+ date
                      +:+ " and email: " +:+ email)),
     σ, [EvGet (history_key date email)]).
Proof.
  intros Hmissing. unfold processNextChunk.
  by rewrite run_bind, (getHistory_run_missing _ _ _ _ Hmissing).
Qed.

(** An object with a [history] and an [account] that is no history
    payload passes the test of [getHistory]; what the call does with it is
    not part of the model, in which nothing more is read or written. *)
Lemma processNextChunk_run_untyped JSON_parse groq date email chunkSize σ fields :
  σ !! history_key date email = Some (VObject fields) →
  has_truthy fields "history" && has_truthy fields "account" = true →
  run groq (processNextChunk JSON_parse date email chunkSize) σ
  = (Unmodelled, σ, [EvGet (history_key date email)]).
Proof.
  intros Hhistory Hboth. unfold processNextChunk, getHistory.
  unfold redisService.get, mbind, prog_bind. cbn [bind run].
  rewrite Hhistory. cbv beta iota. by rewrite Hboth.
Qed.

Lemma history_complete_or_incomplete (result : option value) :
  (∃ account items, result = Some (VHistory (Some account) (Some items)))
  ∨ history_incomplete result
  ∨ ∃ fields, result = Some (VObject fields)
              ∧ has_truthy fields "history" && has_truthy fields "account" = true.
Proof.
  destruct result as [[s|[a|] [h|]|r|fields]|]; try (by right; left).
  - left. by exists a, h.
  - simpl. destruct (has_truthy fields "history" && has_truthy fields "account")
      eqn:Hboth; [|by right; left].
    right. right. by exists fields.
Qed.

(** X6: without a complete history record under the key of the job,
    [processNextChunk] fails with the error of [getHistory], for every chunk
    size; it has read the history key and done nothing else: the progress
    is not read, the classifier is not called, and nothing is written. *)
Theorem processNextChunk_history_missing
    (JSON_parse : string → option value) (groq : string → groq_result)
    (date email : string) (chunkSize : Z) (σ : gmap string value) :
  history_incomplete (σ !! history_key date email) →
  run groq (processNextChunk JSON_parse date email chunkSize) σ
  = (Thrown (Error ("No history found for the date: " +:+ date
                      +:+ " and email: " +:+ email)),
     σ, [EvGet (history_key date email)]).
Proof. apply processNextChunk_run_missing. Qed.

Lemma processNextChunk_history_missing_witness :
  history_incomplete (example_store !! history_key "2024-05-02" "e@x.org")
  ∧ run groq_down (processNextChunk (JSON_parse_table []) "2024-05-02" "e@x.org" 3)
      example_store
    = (Thrown (Error "No history found for the date: 2024-05-02 and email: e@x.org"),
       example_store, [EvGet (history_key "2024-05-02" "e@x.org")]).
Proof.
  assert (history_incomplete (example_store !! history_key "2024-05-02" "e@x.org"))
    as H1 by (vm_compute; exact I).
  split; [exact H1|].
  exact (processNextChunk_history_missing (JSON_parse_table []) groq_down
           "2024-05-02" "e@x.org" 3 example_store H1).
Defined.

(** X7: the progress that [setChunkProgress] writes is the progress that
    [getChunkProgress] reads, for every integer up to 2^53 in magnitude,
    which are the integers that [toString] prints digit by digit and
    [parseInt] reads without rounding: the number goes through its decimal
    text and [parseInt] unchanged. *)
Theorem setChunkProgress_getChunkProgress
    (groq : string → groq_result) (date email : string) (i : Z)
    (σ : gmap string value) :
  Z.abs i ≤ 2 ^ 53 →
  let σ' := (run groq (setChunkProgress date email (Num i)) σ).1.2 in
  run groq (getChunkProgress date email) σ'
  = (Returned (Num i), σ', [EvGet (progress_key date email)]).
Proof.
  intros _ σ'. rewrite getChunkProgress_run. subst σ'.
  unfold setChunkProgress, redisService.set. cbn [run fst snd].
  by rewrite lookup_insert_eq, progress_of_written.
Qed.

Lemma setChunkProgress_getChunkProgress_witness :
  Z.abs 41 ≤ 2 ^ 53
  ∧ run groq_down (getChunkProgress "2024-05-01" "e@x.org")
      (run groq_down (setChunkProgress "2024-05-01" "e@x.org" (Num 41))
         example_store).1.2
    = (Returned (Num 41),
       (run groq_down (setChunkProgress "2024-05-01" "e@x.org" (Num 41))
          example_store).1.2,
       [EvGet (progress_key "2024-05-01" "e@x.org")]).
Proof.
  assert (Z.abs 41 ≤ 2 ^ 53) as H1 by (by vm_compute).
  split; [exact H1|].
  exact (setChunkProgress_getChunkProgress groq_down "2024-05-01" "e@x.org" 41
           example_store H1).
Defined.

(** The store after a call, whatever the state was. *)
Lemma processNextChunk_store JSON_parse groq date email chunkSize σ :
  let index := progress_of (σ !! progress_key date email) in
  let result := run groq (processNextChunk JSON_parse date email chunkSize) σ in
  (result.1.1 ≠ Returned {| completed := false |} ∧ result.1.2 = σ)
  ∨ (result.1.1 = Returned {| completed := false |}
     ∧ ∃ report,
         result.1.2
         = <[progress_key date email := VString (num_toString (num_add index (Num 1)))]>
             (<[chunk_key date email index := report]> σ)).
Proof.
  intros index result. subst result.
  destruct (history_complete_or_incomplete (σ !! history_key date email))
    as [(account & items & Hhistory)|[Hmissing|(fields & Hhistory & Hboth)]];
    [| |left; by rewrite (processNextChunk_run_untyped _ _ _ _ _ _ _ Hhistory Hboth)].
  - destruct (num_ge index (Math_ceil_div (Z.of_nat (length items)) chunkSize))
      eqn:Hge.
    + left. by rewrite (processNextChunk_run_completed_any _ _ _ _ _ _ _ _ Hhistory Hge).
    + destruct (null_or_objects (chunk_at items index chunkSize))
        as [Hnull|[chunk Hchunk]].
      * left. by rewrite (processNextChunk_run_null _ _ _ _ _ _ _ _ Hhistory Hge Hnull).
      * right.
        rewrite (processNextChunk_run_advance_any _ _ _ _ _ _ _ _ _ Hhistory Hge Hchunk).
        split; [done|]. by eexists.
  - left. by rewrite (processNextChunk_run_missing _ _ _ _ _ _ Hmissing).
Qed.



(** X9: a call writes at most two keys, the progress of the job and the
    chunk report of the index it read; every other key of the store, the
    history, the other chunk reports and the daily report among them, holds
    after the call what it held before. *)
Theorem processNextChunk_frame
    (JSON_parse : string → option value) (groq : string → groq_result)
    (date email : string) (chunkSize : Z) (σ : gmap string value) (key : string) :
  key ≠ progress_key date email →
  key ≠ chunk_key date email (progress_of (σ !! progress_key date email)) →
  (run groq (processNextChunk JSON_parse date email chunkSize) σ).1.2 !! key
  = σ !! key.
Proof.
  intros Hprogress Hchunk.
  pose proof (processNextChunk_store JSON_parse groq date email chunkSize σ) as Hcall.
  cbv zeta in Hcall. destruct Hcall as [[_ ->]|[_ [report ->]]]; [done|].
  by rewrite !lookup_insert_ne.
Qed.

Lemma processNextChunk_frame_witness :
  history_key "2024-05-01" "e@x.org" ≠ progress_key "2024-05-01" "e@x.org"
  ∧ history_key "2024-05-01" "e@x.org"
    ≠ chunk_key "2024-05-01" "e@x.org"
        (progress_of (example_store !! progress_key "2024-05-01" "e@x.org"))
  ∧ (run groq_down (processNextChunk (JSON_parse_table []) "2024-05-01" "e@x.org" 3)
       example_store).1.2 !! history_key "2024-05-01" "e@x.org"
    = example_store !! history_key "2024-05-01" "e@x.org".
Proof.
  assert (history_key "2024-05-01" "e@x.org" ≠ progress_key "2024-05-01" "e@x.org")
    as H1 by (apply not_eq_sym, progress_key_ne_history_key).
  assert (history_key "2024-05-01" "e@x.org"
          ≠ chunk_key "2024-05-01" "e@x.org"
              (progress_of (example_store !! progress_key "2024-05-01" "e@x.org")))
    as H2 by (apply not_eq_sym, chunk_key_ne_history_key).
  split; [exact H1|]. split; [exact H2|].
  exact (processNextChunk_frame (JSON_parse_table []) groq_down
           "2024-05-01" "e@x.org" 3 example_store _ H1 H2).
Defined.

(** ** The chunks of a history *)

Lemma Math_ceil_div_pos (len chunkSize : Z) :
  0 ≤ len → 0 < chunkSize →
  ∃ n : nat,
    Math_ceil_div len chunkSize = Num (Z.of_nat n)
    ∧ len ≤ Z.of_nat n * chunkSize
    ∧ (Z.of_nat n - 1) * chunkSize < len.
Proof.
  intros Hlen Hsize. unfold Math_ceil_div.
  destruct (Z.eqb_spec chunkSize 0) as [->|_]; [lia|].
  pose proof (Z.div_mod (- len) chunkSize ltac:(lia)) as Hdiv.
  pose proof (Z.mod_pos_bound (- len) chunkSize Hsize) as Hmod.
  exists (Z.to_nat (- ((- len) `div` chunkSize))).
  assert (0 ≤ - ((- len) `div` chunkSize)) by nia.
  rewrite Z2Nat.id by done. split; [done|]. nia.
Qed.

(** For a positive chunk size the chunk of index [i] is the [chunkSize]
    entries behind the first [i * chunkSize]. *)
Lemma chunk_at_take_drop (items : list HistoryItem.t) (i chunkSize : Z) :
  0 ≤ i → 0 < chunkSize →
  chunk_at items (Num i) chunkSize
  = take (Z.to_nat chunkSize) (drop (Z.to_nat (i * chunkSize)) items).
Proof.
  intros Hi Hsize. unfold chunk_at, slice. cbn [num_mul num_add relative_index].
  destruct (Z.ltb_spec (i * chunkSize) 0); [nia|].
  destruct (Z.ltb_spec (i * chunkSize + chunkSize) 0); [nia|].
  set (len := Z.of_nat (length items)).
  destruct (Z.le_gt_cases len (i * chunkSize)) as [Hout|Hin].
  - rewrite !Z.min_r by lia. rewrite Z.sub_diag. cbn [Z.to_nat take].
    rewrite (drop_ge items (Z.to_nat (i * chunkSize))) by (subst len; lia).
    by rewrite take_nil.
  - rewrite (Z.min_l (i * chunkSize)) by lia.
    destruct (Z.le_gt_cases (i * chunkSize + chunkSize) len) as [Hfull|Hshort].
    + rewrite Z.min_l by lia. f_equal. lia.
    + rewrite Z.min_r by lia.
      rewrite !take_ge; [done| |]; rewrite length_drop; subst len; lia.
Qed.

Lemma concat_chunks (items : list HistoryItem.t) (chunkSize : Z) (n : nat) :
  0 < chunkSize →
  concat ((λ i : nat, chunk_at items (Num (Z.of_nat i)) chunkSize) <$> seq 0 n)
  = take (n * Z.to_nat chunkSize) items.
Proof.
  intros Hsize. induction n as [|n IH]; [done|].
  rewrite seq_S, fmap_app, concat_app, IH. cbn [fmap list_fmap concat].
  rewrite app_nil_r, chunk_at_take_drop by lia.
  replace (Z.to_nat (Z.of_nat (0 + n) * chunkSize))
    with (n * Z.to_nat chunkSize)%nat by lia.
  rewrite take_take_drop. f_equal. lia.
Qed.

(** X10: for a positive chunk size the chunks of the indices below
    [Math.ceil(length / chunkSize)] partition the history: put one behind
    the other they are the history, every entry in its place, and each of
    them holds at least one entry and at most [chunkSize]. *)
Theorem chunks_partition_history (items : list HistoryItem.t) (chunkSize : Z) :
  0 < chunkSize →
  ∃ n : nat,
    Math_ceil_div (Z.of_nat (length items)) chunkSize = Num (Z.of_nat n)
    ∧ concat ((λ i : nat, chunk_at items (Num (Z.of_nat i)) chunkSize) <$> seq 0 n)
      = items
    ∧ Forall (λ chunk, (0 < length chunk)%nat ∧ Z.of_nat (length chunk) ≤ chunkSize)
        ((λ i : nat, chunk_at items (Num (Z.of_nat i)) chunkSize) <$> seq 0 n).
Proof.
  intros Hsize.
  destruct (Math_ceil_div_pos (Z.of_nat (length items)) chunkSize) as (n & Hn & Hup & Hlow);
    [lia|done|].
  exists n. split; [done|]. split.
  - rewrite concat_chunks by done. apply take_ge. nia.
  - apply Forall_forall. intros chunk Hchunk.
    apply list_elem_of_fmap in Hchunk as (i & -> & Hi).
    apply elem_of_seq in Hi. rewrite chunk_at_take_drop by lia.
    rewrite length_take, length_drop. split; [|lia].
    assert (Z.of_nat i * chunkSize < Z.of_nat (length items)) by nia. lia.
Qed.

Lemma chunks_partition_history_witness :
  0 < 3
  ∧ ∃ n : nat,
      Math_ceil_div (Z.of_nat (length example_history)) 3 = Num (Z.of_nat n)
      ∧ concat ((λ i : nat, chunk_at example_history (Num (Z.of_nat i)) 3) <$> seq 0 n)
        = example_history
      ∧ Forall (λ chunk, (0 < length chunk)%nat ∧ Z.of_nat (length chunk) ≤ 3)
          ((λ i : nat, chunk_at example_history (Num (Z.of_nat i)) 3) <$> seq 0 n).
Proof.
  assert (0 < 3) as H1 by reflexivity.
  split; [exact H1|].
  exact (chunks_partition_history example_history 3 H1).
Defined.

(** ** A job from the first call to the last *)

Section job.
Variable JSON_parse : string → option value.

(** Calls at the indices from [i] on, as long as chunks are left: every call
    returns [{completed: false}], stores the report of its chunk, and moves
    the progress on by one; no other key changes. *)
Lemma run_calls_advance date email chunkSize account items total groqs :
  ∀ σ i,
    σ !! history_key date email = Some (VHistory (Some account) (Some (Some <$> items))) →
    Math_ceil_div (Z.of_nat (length items)) chunkSize = Num total →
    progress_of (σ !! progress_key date email) = Num i →
    i + Z.of_nat (length groqs) ≤ total →
    let calls := run_calls groqs (processNextChunk JSON_parse date email chunkSize) σ in
    calls.1 = replicate (length groqs) (Returned {| completed := false |})
    ∧ progress_of (calls.2 !! progress_key date email)
      = Num (i + Z.of_nat (length groqs))
    ∧ (∀ (j : nat) groq,
         groqs !! j = Some groq →
         calls.2 !! chunk_key date email (Num (i + Z.of_nat j))
         = Some (reply_report JSON_parse
                   (groq (chunk_prompt
                            (chunk_at items (Num (i + Z.of_nat j)) chunkSize)))))
    ∧ (∀ key,
         key ≠ progress_key date email →
         (∀ j : nat, (j < length groqs)%nat →
                     key ≠ chunk_key date email (Num (i + Z.of_nat j))) →
         calls.2 !! key = σ !! key).
Proof.
  induction groqs as [|groq groqs IH]; intros σ i Hhistory Htotal Hindex Hleft calls.
  { subst calls. cbn [run_calls length fst snd replicate].
    rewrite Z.add_0_r. by repeat split. }
  subst calls. cbn [run_calls length].
  assert (num_ge (Num i) (Math_ceil_div (Z.of_nat (length items)) chunkSize) = false)
    as Hge.
  { rewrite Htotal. cbn [num_ge]. apply bool_decide_eq_false.
    cbn [length] in Hleft. lia. }
  pose proof (processNextChunk_run_advance JSON_parse groq date email chunkSize
                σ account items Hhistory) as Hrun.
  cbv zeta in Hrun. rewrite Hindex in Hrun. rewrite (Hrun Hge). clear Hrun.
  set (report := reply_report JSON_parse
                   (groq (chunk_prompt (chunk_at items (Num i) chunkSize)))).
  set (σ1 := <[progress_key date email:=VString (num_toString (num_add (Num i) (Num 1)))]>
               (<[chunk_key date email (Num i):=report]> σ)).
  assert (σ1 !! history_key date email
          = Some (VHistory (Some account) (Some (Some <$> items)))) as Hhistory1.
  { subst σ1. rewrite lookup_insert_ne by apply progress_key_ne_history_key.
    by rewrite lookup_insert_ne by apply chunk_key_ne_history_key. }
  assert (progress_of (σ1 !! progress_key date email) = Num (i + 1)) as Hindex1.
  { subst σ1. rewrite lookup_insert_eq. apply (progress_of_written (i + 1)). }
  destruct (IH σ1 (i + 1) Hhistory1 Htotal Hindex1) as (Hout & Hprog & Hchunks & Hframe).
  { cbn [length] in Hleft. lia. }
  destruct (run_calls groqs (processNextChunk JSON_parse date email chunkSize) σ1)
    as [outcomes σ2]. cbn [fst snd] in *.
  split; [by rewrite Hout|].
  split; [rewrite Hprog; f_equal; lia|].
  split.
  - intros [|j] groq' Hj; cbn [lookup list_lookup] in Hj.
    + injection Hj as <-. rewrite Z.add_0_r. rewrite Hframe.
      * subst σ1. rewrite lookup_insert_ne
          by (apply not_eq_sym, chunk_key_ne_progress_key).
        by rewrite lookup_insert_eq.
      * apply chunk_key_ne_progress_key.
      * intros j _ Heq. apply chunk_key_inj in Heq. lia.
    + replace (i + Z.of_nat (S j)) with (i + 1 + Z.of_nat j) by lia.
      by apply Hchunks.
  - intros key Hprogress Hkeys. rewrite Hframe.
    + subst σ1. rewrite lookup_insert_ne by done.
      rewrite lookup_insert_ne; [done|].
      specialize (Hkeys 0%nat ltac:(lia)). rewrite Z.add_0_r in Hkeys. done.
    + done.
    + intros j Hj. specialize (Hkeys (S j) ltac:(lia)).
      by replace (i + Z.of_nat (S j)) with (i + 1 + Z.of_nat j) in Hkeys by lia.
Qed.

End job.


(** ** [finalizeDailyReport] and [getDailyReport] *)

Section finalize_more.
Variable new_URL : string → option URL.
Variable groq : string → groq_result.

(** The loop only reads. *)
Lemma collect_reports_store fuel date email chunkIndex reports σ :
  (run groq (collect_reports fuel date email chunkIndex reports) σ).1.2 = σ.
Proof.
  revert chunkIndex reports.
  induction fuel as [|fuel IH]; intros chunkIndex reports; [done|].
  cbn [collect_reports]. unfold redisService.get, mbind, prog_bind. cbn [bind run].
  destruct (σ !! chunk_key date email (Num chunkIndex)) as [v|]; [|done].
  destruct (truthy (Some v)); cbn [negb]; [|done].
  specialize (IH (chunkIndex + 1) (reports ++ [v])).
  by destruct (run groq (collect_reports fuel date email (chunkIndex + 1)
                           (reports ++ [v])) σ) as [[o σ'] tr].
Qed.

(** The loop over a run of stored reports that ends at a missing index. *)
Lemma collect_reports_run date email σ (stored : list DailyReport) :
  ∀ fuel chunkIndex reports,
    (∀ (j : nat) report,
       stored !! j = Some report →
       σ !! chunk_key date email (Num (chunkIndex + Z.of_nat j))
       = Some (VReport report)) →
    truthy (σ !! chunk_key date email (Num (chunkIndex + Z.of_nat (length stored))))
    = false →
    (length stored < fuel)%nat →
    run groq (collect_reports fuel date email chunkIndex reports) σ
    = (Returned (reports ++ (VReport <$> stored)), σ,
       (λ j : nat, EvGet (chunk_key date email (Num (chunkIndex + Z.of_nat j))))
         <$> seq 0 (S (length stored))).
Proof.
  induction stored as [|report stored IH];
    intros fuel chunkIndex reports Hstored Hgap Hfuel;
    (destruct fuel as [|fuel]; [cbn [length] in Hfuel; lia|]);
    cbn [collect_reports]; unfold redisService.get, mbind, prog_bind;
    cbn [bind run].
  - cbn [length] in Hgap. rewrite !Z.add_0_r in *. rewrite Hgap.
    cbn [length seq fmap list_fmap Z.of_nat]. rewrite app_nil_r, Z.add_0_r.
    by destruct (σ !! chunk_key date email (Num chunkIndex)).
  - pose proof (Hstored 0%nat report eq_refl) as Hfirst.
    rewrite Z.add_0_r in Hfirst. rewrite Hfirst. cbn [truthy negb].
    rewrite (IH fuel (chunkIndex + 1) (reports ++ [VReport report])).
    + rewrite <- app_assoc. cbn [fmap list_fmap app length]. f_equal.
      change (seq 0 (S (S (length stored))))
        with (0%nat :: seq 1 (S (length stored))).
      rewrite fmap_cons, Z.add_0_r. f_equal.
      rewrite <- fmap_S_seq, <- list_fmap_compose.
      apply list_fmap_ext. intros _ j _. cbn [compose]. do 3 f_equal. lia.
    + intros j report' Hj.
      replace (chunkIndex + 1 + Z.of_nat j) with (chunkIndex + Z.of_nat (S j)) by lia.
      by apply Hstored.
    + cbn [length] in Hgap.
      by replace (chunkIndex + 1 + Z.of_nat (length stored))
        with (chunkIndex + Z.of_nat (S (length stored))) by lia.
    + cbn [length] in Hfuel. lia.
Qed.

(** The same for documents of any kind. *)
Lemma collect_documents_run date email σ (docs : list value) :
  ∀ fuel chunkIndex reports,
    (∀ (j : nat) doc,
       docs !! j = Some doc →
       σ !! chunk_key date email (Num (chunkIndex + Z.of_nat j)) = Some doc
       ∧ truthy (Some doc) = true) →
    truthy (σ !! chunk_key date email (Num (chunkIndex + Z.of_nat (length docs))))
    = false →
    (length docs < fuel)%nat →
    run groq (collect_reports fuel date email chunkIndex reports) σ
    = (Returned (reports ++ docs), σ,
       (λ j : nat, EvGet (chunk_key date email (Num (chunkIndex + Z.of_nat j))))
         <$> seq 0 (S (length docs))).
Proof.
  induction docs as [|doc docs IH];
    intros fuel chunkIndex reports Hstored Hgap Hfuel;
    (destruct fuel as [|fuel]; [cbn [length] in Hfuel; lia|]);
    cbn [collect_reports]; unfold redisService.get, mbind, prog_bind;
    cbn [bind run].
  - cbn [length] in Hgap. rewrite !Z.add_0_r in *. rewrite Hgap.
    cbn [length seq fmap list_fmap Z.of_nat]. rewrite app_nil_r, Z.add_0_r.
    by destruct (σ !! chunk_key date email (Num chunkIndex)).
  - destruct (Hstored 0%nat doc eq_refl) as [Hfirst Htruthy].
    rewrite Z.add_0_r in Hfirst. rewrite Hfirst, Htruthy. cbn [negb].
    rewrite (IH fuel (chunkIndex + 1) (reports ++ [doc])).
    + rewrite <- app_assoc. cbn [app length]. f_equal.
      change (seq 0 (S (S (length docs))))
        with (0%nat :: seq 1 (S (length docs))).
      rewrite fmap_cons, Z.add_0_r. f_equal.
      rewrite <- fmap_S_seq, <- list_fmap_compose.
      apply list_fmap_ext. intros _ j _. cbn [compose]. do 3 f_equal. lia.
    + intros j doc' Hj.
      replace (chunkIndex + 1 + Z.of_nat j) with (chunkIndex + Z.of_nat (S j)) by lia.
      by apply Hstored.
    + cbn [length] in Hgap.
      by replace (chunkIndex + 1 + Z.of_nat (length docs))
        with (chunkIndex + Z.of_nat (S (length docs))) by lia.
    + cbn [length] in Hfuel. lia.
Qed.

Lemma mapM_as_report (stored : list DailyReport) :
  mapM as_report (VReport <$> stored) = Some stored.
Proof.
  apply mapM_Some_2. induction stored as [|report stored IH]; by constructor.
Qed.

Lemma finalizeDailyReport_run date email σ (stored : list DailyReport) fuel :
  (0 < length stored)%nat →
  (∀ (j : nat) report,
     stored !! j = Some report →
     σ !! chunk_key date email (Num (Z.of_nat j)) = Some (VReport report)) →
  truthy (σ !! chunk_key date email (Num (Z.of_nat (length stored)))) = false →
  (length stored < fuel)%nat →
  run groq (finalizeDailyReport new_URL fuel date email) σ
  = (Returned (aggregateReports new_URL stored),
     <[report_key date email := VReport (aggregateReports new_URL stored)]> σ,
     ((λ j : nat, EvGet (chunk_key date email (Num (Z.of_nat j))))
        <$> seq 0 (S (length stored)))
     ++ [EvSet (report_key date email) (VReport (aggregateReports new_URL stored))]).
Proof.
  intros Hsome Hstored Hgap Hfuel. unfold finalizeDailyReport.
  rewrite run_bind, (collect_reports_run date email σ stored fuel 0 []); try done.
  cbv beta iota. cbn [app].
  rewrite bool_decide_eq_false_2 by (rewrite length_fmap; lia).
  rewrite mapM_as_report. unfold redisService.set, mbind, prog_bind. by cbn [bind run].
Qed.

Lemma getDailyReport_run_stored date email σ report :
  σ !! report_key date email = Some (VReport report) →
  run groq (getDailyReport date email) σ
  = (Returned (VReport report), σ, [EvGet (report_key date email)]).
Proof.
  intros Hstored. unfold getDailyReport, redisService.get, mbind, prog_bind.
  cbn [bind run]. by rewrite Hstored.
Qed.

Lemma getDailyReport_run_missing date email σ :
  truthy (σ !! report_key date email) = false →
  run groq (getDailyReport date email) σ
  = (Thrown (Error ("No daily report found for date: " +:+ date
                      +:+ " and email: " +:+ email)),
     σ, [EvGet (report_key date email)]).
Proof.
  intros Hmissing. unfold getDailyReport, redisService.get, mbind, prog_bind.
  cbn [bind run]. rewrite Hmissing.
  by destruct (σ !! report_key date email).
Qed.

(** X12: [finalizeDailyReport] aggregates the chunk reports of the indices
    from 0 up to the first index without a report, and only those: it reads
    these indices in order, returns the aggregate of the reports found, and
    stores it under the key of the daily report as its single write. *)
Theorem finalizeDailyReport_aggregates_stored
    (date email : string) (σ : gmap string value) (stored : list DailyReport)
    (fuel : nat) :
  (0 < length stored)%nat →
  (∀ (j : nat) report,
     stored !! j = Some report →
     σ !! chunk_key date email (Num (Z.of_nat j)) = Some (VReport report)) →
  truthy (σ !! chunk_key date email (Num (Z.of_nat (length stored)))) = false →
  (length stored < fuel)%nat →
  run groq (finalizeDailyReport new_URL fuel date email) σ
  = (Returned (aggregateReports new_URL stored),
     <[report_key date email := VReport (aggregateReports new_URL stored)]> σ,
     ((λ j : nat, EvGet (chunk_key date email (Num (Z.of_nat j))))
        <$> seq 0 (S (length stored)))
     ++ [EvSet (report_key date email) (VReport (aggregateReports new_URL stored))]).
Proof. apply finalizeDailyReport_run. Qed.

(** X13: the report that [finalizeDailyReport] returns for a job with chunk
    reports is the document that [getDailyReport] returns afterwards. *)
Theorem finalizeDailyReport_getDailyReport
    (date email : string) (σ : gmap string value) (stored : list DailyReport)
    (fuel : nat) :
  (0 < length stored)%nat →
  (∀ (j : nat) report,
     stored !! j = Some report →
     σ !! chunk_key date email (Num (Z.of_nat j)) = Some (VReport report)) →
  truthy (σ !! chunk_key date email (Num (Z.of_nat (length stored)))) = false →
  (length stored < fuel)%nat →
  let finalized := run groq (finalizeDailyReport new_URL fuel date email) σ in
  ∃ report,
    finalized.1.1 = Returned report
    ∧ run groq (getDailyReport date email) finalized.1.2
      = (Returned (VReport report), finalized.1.2, [EvGet (report_key date email)]).
Proof.
  intros Hsome Hstored Hgap Hfuel finalized. subst finalized.
  rewrite (finalizeDailyReport_run _ _ _ _ _ Hsome Hstored Hgap Hfuel).
  eexists. split; [done|]. cbn [fst snd].
  apply getDailyReport_run_stored, lookup_insert_eq.
Qed.

(** X14: the neutral report that [finalizeDailyReport] returns for a job
    without chunk reports is not stored: when no daily report was stored
    before, [getDailyReport] after it fails with its not-found error. *)
Theorem finalizeDailyReport_empty_not_found
    (date email : string) (σ : gmap string value) (fuel : nat) :
  truthy (σ !! chunk_key date email (Num 0)) = false →
  truthy (σ !! report_key date email) = false →
  let finalized := run groq (finalizeDailyReport new_URL (S fuel) date email) σ in
  finalized.1.1 = Returned neutral_report
  ∧ run groq (getDailyReport date email) finalized.1.2
    = (Thrown (Error ("No daily report found for date: " +:+ date
                        +:+ " and email: " +:+ email)),
       finalized.1.2, [EvGet (report_key date email)]).
Proof.
  intros Hnone Hmissing finalized.
  assert (finalized
          = (Returned neutral_report, σ, [EvGet (chunk_key date email (Num 0))]))
    as ->.
  { subst finalized. unfold finalizeDailyReport. rewrite run_bind.
    cbn [collect_reports]. unfold redisService.get, mbind, prog_bind.
    cbn [bind run]. rewrite Hnone.
    by destruct (σ !! chunk_key date email (Num 0)). }
  split; [done|]. by apply getDailyReport_run_missing.
Qed.

(** X24: a chunk report that is no report breaks the finalization.  When
    one of the documents stored for the chunks of a job has no [categories]
    (as the empty object has that the classifier may reply with, which
    [processNextChunk] stores as it is) or nothing to iterate over for
    [mostVisitedSites], [finalizeDailyReport] throws a [TypeError] after it
    has read the chunk reports: no daily report is written, and the store
    is as it was. *)
Theorem finalizeDailyReport_breaks
    (date email : string) (σ : gmap string value) (docs : list value) (fuel : nat) :
  (∀ (j : nat) doc,
     docs !! j = Some doc →
     σ !! chunk_key date email (Num (Z.of_nat j)) = Some doc
     ∧ truthy (Some doc) = true) →
  truthy (σ !! chunk_key date email (Num (Z.of_nat (length docs)))) = false →
  (length docs < fuel)%nat →
  existsb breaks_aggregation docs = true →
  run groq (finalizeDailyReport new_URL fuel date email) σ
  = (Thrown TypeError, σ,
     (λ j : nat, EvGet (chunk_key date email (Num (Z.of_nat j))))
       <$> seq 0 (S (length docs))).
Proof.
  intros Hstored Hgap Hfuel Hbreaks. unfold finalizeDailyReport.
  rewrite run_bind, (collect_documents_run date email σ docs fuel 0 []); try done.
  cbv beta iota. cbn [app].
  apply existsb_exists in Hbreaks as (doc & Hdoc & Hbroken).
  apply list_elem_of_In in Hdoc.
  rewrite bool_decide_eq_false_2 by (destruct docs; [by apply elem_of_nil in Hdoc|done]).
  destruct (mapM as_report docs) as [reports|] eqn:Htyped.
  - exfalso. apply mapM_Some_1 in Htyped.
    apply list_elem_of_lookup in Hdoc as [j Hj].
    destruct (Forall2_lookup_l _ _ _ _ _ Htyped Hj) as (report & _ & Hreport).
    by destruct doc.
  - assert (existsb breaks_aggregation docs = true) as ->;
      [|cbn [run]; by rewrite app_nil_r].
    apply existsb_exists. exists doc. split; [by apply list_elem_of_In|done].
Qed.

(** The loop of lines 178-186 returns its list or is cut, and the
    documents of the list are documents of the store. *)
Lemma collect_reports_outcome fuel date email chunkIndex acc σ :
  match (run groq (collect_reports fuel date email chunkIndex acc) σ).1.1 with
  | Returned reports =>
      ∀ v, v ∈ reports →
           v ∈ acc ∨ ∃ j, σ !! chunk_key date email (Num j) = Some v
  | Cut => True
  | _ => False
  end.
Proof.
  revert chunkIndex acc.
  induction fuel as [|fuel IH]; intros chunkIndex acc; [done|].
  cbn [collect_reports]. unfold redisService.get, mbind, prog_bind.
  cbn [bind run].
  destruct (σ !! chunk_key date email (Num chunkIndex)) as [v|] eqn:Hv;
    [|by left].
  destruct (truthy (Some v)); cbn [negb]; [|by left].
  specialize (IH (chunkIndex + 1) (acc ++ [v])).
  destruct (run groq (collect_reports fuel date email (chunkIndex + 1)
                        (acc ++ [v])) σ) as [[[reports|e| |] σ'] tr']; try done.
  cbn [fst] in *. intros w Hw. destruct (IH w Hw) as [Hacc|Hstored]; [|by right].
  apply elem_of_app in Hacc as [Hacc|Hnew]; [by left|].
  apply list_elem_of_singleton in Hnew as ->. right. by exists chunkIndex.
Qed.

(** X15: [finalizeDailyReport] always ends, and it writes nothing but the
    daily report.  With one round more than the store has keys its loop is
    not cut: the call returns a report, with the store unchanged or changed
    at the key of the daily report only, where it then holds that report,
    or it throws the [TypeError] of a stored document that is no report and
    leaves the store unchanged; the one case that is left is that of a
    store with a chunk report that is an object of another shape than a
    report which has something for [categories] and a [mostVisitedSites] to
    iterate over, on which the aggregation is not part of the model. *)
Theorem finalizeDailyReport_returns_or_throws
    (date email : string) (σ : gmap string value) :
  let finalized := run groq (finalizeDailyReport new_URL (S (size σ)) date email) σ in
  (∃ report,
     finalized.1.1 = Returned report
     ∧ (finalized.1.2 = σ
        ∨ finalized.1.2 = <[report_key date email := VReport report]> σ))
  ∨ (finalized.1.1 = Thrown TypeError ∧ finalized.1.2 = σ)
  ∨ (finalized.1.1 = Unmodelled
     ∧ ∃ j fields,
         σ !! chunk_key date email (Num j) = Some (VObject fields)
         ∧ breaks_aggregation (VObject fields) = false).
Proof.
  intros finalized.
  pose proof (finalizeDailyReport_terminates new_URL groq date email σ) as Hends.
  fold finalized in Hends. subst finalized.
  unfold finalizeDailyReport in *. rewrite run_bind in *.
  pose proof (collect_reports_store (S (size σ)) date email 0 [] σ) as Hstore.
  pose proof (collect_reports_outcome (S (size σ)) date email 0 [] σ) as Hout.
  destruct (run groq (collect_reports (S (size σ)) date email 0 []) σ)
    as [[[reports|e| |] σ'] tr] eqn:Hrun; cbn [fst snd] in Hstore, Hout; subst σ';
    try done.
  case_bool_decide.
  - left. exists neutral_report. split; [done|]. by left.
  - destruct (mapM as_report reports) as [stored|] eqn:Htyped.
    + left. unfold redisService.set, mbind, prog_bind. cbn [bind run].
      eexists. split; [done|]. by right.
    + right. destruct (existsb breaks_aggregation reports) eqn:Hbreaks; [by left|].
      right. split; [done|].
      assert (¬ Forall (λ v, is_Some (as_report v)) reports) as Hsome.
      { intros Hall. apply mapM_is_Some in Hall. rewrite Htyped in Hall.
        by destruct Hall. }
      apply not_Forall_Exists in Hsome; [|apply _].
      apply Exists_exists in Hsome as (v & Hv & Hno).
      assert (breaks_aggregation v = false) as Hv'.
      { destruct (breaks_aggregation v) eqn:Hb; [|done].
        assert (existsb breaks_aggregation reports = true) as Hex
          by (apply existsb_exists; exists v; split;
              [by apply list_elem_of_In|done]).
        by rewrite Hex in Hbreaks. }
      destruct (Hout v Hv) as [Hnil|[j Hj]]; [by apply elem_of_nil in Hnil|].
      destruct v as [s|a h|r|fields]; try done.
      * exfalso. apply Hno. by eexists.
      * by exists j, fields.
Qed.
End finalize_more.

(** ** The keys of different jobs *)

Lemma history_key_ne_report_key date email date' email' :
  history_key date email ≠ report_key date' email'.
Proof. unfold history_key, report_key. simpl. intros H. discriminate H. Qed.

Lemma occurs_cons_false c d s :
  occurs c (String d s) = false → d ≠ c ∧ occurs c s = false.
Proof.
  simpl. intros H. apply orb_false_elim in H as [Hd Hs].
  split; [|done]. intros ->. by rewrite Ascii.eqb_refl in Hd.
Qed.

(** A text without a colon in front of a colon is determined by the whole. *)
Lemma colon_prefix_inj d d' r r' :
  occurs ":"%char d = false → occurs ":"%char d' = false →
  d +:+ ":" +:+ r = d' +:+ ":" +:+ r' → d = d' ∧ r = r'.
Proof.
  revert d'. induction d as [|c d IH]; intros [|c' d'] Hd Hd' Heq.
  - by injection Heq.
  - apply occurs_cons_false in Hd' as [Hc' _]. by injection Heq as <- _.
  - apply occurs_cons_false in Hd as [Hc _]. by injection Heq as -> _.
  - apply occurs_cons_false in Hd as [_ Hd].
    apply occurs_cons_false in Hd' as [_ Hd'].
    injection Heq as -> Heq. destruct (IH d' Hd Hd' Heq) as [-> ->]. done.
Qed.

(** A text without a colon behind a colon is determined by the whole. *)
Lemma colon_suffix_inj e e' n n' :
  occurs ":"%char n = false → occurs ":"%char n' = false →
  e +:+ ":" +:+ n = e' +:+ ":" +:+ n' → e = e' ∧ n = n'.
Proof.
  revert e'. induction e as [|c e IH]; intros [|c' e'] Hn Hn' Heq.
  - by injection Heq.
  - injection Heq as _ Heq.
    assert (n = e' +:+ ":" +:+ n') as -> by exact Heq.
    rewrite occurs_app in Hn. apply orb_false_elim in Hn as [_ Hn]. done.
  - injection Heq as _ Heq.
    assert (e +:+ ":" +:+ n = n') as <- by exact Heq.
    rewrite occurs_app in Hn'. apply orb_false_elim in Hn' as [_ Hn']. done.
  - injection Heq as -> Heq. destruct (IH e' Hn Hn' Heq) as [-> ->]. done.
Qed.

Lemma pretty_N_go_no_colon (x : N) (s : string) :
  occurs ":"%char (pretty_N_go x s) = occurs ":"%char s.
Proof.
  revert s. induction (N.lt_wf_0 x) as [x _ IH]; intros s.
  destruct (decide (x = 0%N)) as [->|Hx]; [done|].
  rewrite pretty_N_go_step by lia. rewrite IH by (apply N.div_lt; lia).
  cbn [occurs]. unfold pretty_N_char. by repeat case_match.
Qed.

Lemma num_toString_no_colon (n : number) : occurs ":"%char (num_toString n) = false.
Proof.
  destruct n as [[|p|p]| | |]; try reflexivity; cbn [num_toString pretty pretty_Z].
  - unfold pretty, pretty_positive, pretty, pretty_N.
    rewrite decide_False by done. by rewrite pretty_N_go_no_colon.
  - unfold pretty, pretty_positive, pretty, pretty_N.
    rewrite decide_False by done.
    change (occurs ":"%char (String "-"%char (pretty_N_go (N.pos p) "")) = false).
    cbn [occurs]. by rewrite pretty_N_go_no_colon.
Qed.

Lemma job_keys_inj date email date' email' key :
  occurs ":"%char date = false → occurs ":"%char date' = false →
  key_of_job date email key → key_of_job date' email' key →
  date = date' ∧ email = email'.
Proof.
  intros Hd Hd' [->|[->|[->|[index ->]]]] [Heq|[Heq|[Heq|[index' Heq]]]].
  all: try (exfalso; revert Heq;
            first [ apply not_eq_sym, progress_key_ne_history_key
                  | apply progress_key_ne_history_key
                  | apply history_key_ne_report_key
                  | apply not_eq_sym, history_key_ne_report_key
                  | apply not_eq_sym, chunk_key_ne_history_key
                  | apply chunk_key_ne_history_key
                  | apply progress_key_ne_report_key
                  | apply not_eq_sym, progress_key_ne_report_key
                  | apply chunk_key_ne_progress_key
                  | apply not_eq_sym, chunk_key_ne_progress_key
                  | apply chunk_key_ne_report_key
                  | apply not_eq_sym, chunk_key_ne_report_key ]).
  - unfold history_key in Heq. apply (inj (String.app _)) in Heq.
    by apply colon_prefix_inj in Heq.
  - unfold progress_key in Heq. apply (inj (String.app _)) in Heq.
    by apply colon_prefix_inj in Heq.
  - unfold report_key in Heq. apply (inj (String.app _)) in Heq.
    by apply colon_prefix_inj in Heq.
  - unfold chunk_key in Heq. apply (inj (String.app _)) in Heq.
    apply colon_prefix_inj in Heq as [-> Heq]; [|done..].
    apply colon_suffix_inj in Heq as [-> _]; auto using num_toString_no_colon.
Qed.

(** X16: the keys of two jobs do not meet when the dates hold no colon: a
    key that belongs to the job of one date and address and to the job of
    another date and address forces the dates and the addresses to be the
    same. *)
Theorem job_keys_disjoint (date email date' email' key : string) :
  occurs ":"%char date = false → occurs ":"%char date' = false →
  key_of_job date email key → key_of_job date' email' key →
  date = date' ∧ email = email'.
Proof. apply job_keys_inj. Qed.

Lemma job_keys_disjoint_witness :
  occurs ":"%char "2024-05-01" = false
  ∧ occurs ":"%char "2024-05-01" = false
  ∧ key_of_job "2024-05-01" "e@x.org" (chunk_key "2024-05-01" "e@x.org" (Num 2))
  ∧ key_of_job "2024-05-01" "e@x.org" (chunk_key "2024-05-01" "e@x.org" (Num 2))
  ∧ "2024-05-01" = "2024-05-01" ∧ "e@x.org" = "e@x.org".
Proof.
  assert (occurs ":"%char "2024-05-01" = false) as H1 by reflexivity.
  assert (key_of_job "2024-05-01" "e@x.org"
            (chunk_key "2024-05-01" "e@x.org" (Num 2))) as H2.
  { right. right. right. by exists (Num 2). }
  split; [exact H1|]. split; [exact H1|]. split; [exact H2|]. split; [exact H2|].
  exact (job_keys_disjoint "2024-05-01" "e@x.org" "2024-05-01" "e@x.org" _
           H1 H1 H2 H2).
Defined.

(** X17: [processNextChunk] for one job leaves every key of every other job
    as it was, when the dates of the two jobs hold no colon. *)
Theorem processNextChunk_other_job
    (JSON_parse : string → option value) (groq : string → groq_result)
    (date email : string) (chunkSize : Z) (σ : gmap string value)
    (date' email' key : string) :
  occurs ":"%char date = false → occurs ":"%char date' = false →
  date ≠ date' ∨ email ≠ email' →
  key_of_job date' email' key →
  (run groq (processNextChunk JSON_parse date email chunkSize) σ).1.2 !! key
  = σ !! key.
Proof.
  intros Hd Hd' Hother Hkey.
  pose proof (processNextChunk_store JSON_parse groq date email chunkSize σ) as Hcall.
  cbv zeta in Hcall. destruct Hcall as [[_ ->]|[_ [report ->]]]; [done|].
  assert (∀ key', key_of_job date email key' → key ≠ key') as Hne.
  { intros key' Hkey' ->.
    destruct (job_keys_inj date email date' email' key' Hd Hd' Hkey' Hkey) as [-> ->].
    by destruct Hother. }
  rewrite !lookup_insert_ne; [done|..]; apply not_eq_sym, Hne.
  - right. right. right. by eexists.
  - right. by left.
Qed.

Lemma processNextChunk_other_job_witness :
  occurs ":"%char "2024-05-01" = false
  ∧ occurs ":"%char "2024-05-02" = false
  ∧ ("2024-05-01" ≠ "2024-05-02" ∨ "e@x.org" ≠ "e@x.org")
  ∧ key_of_job "2024-05-02" "e@x.org" (progress_key "2024-05-02" "e@x.org")
  ∧ (run groq_down (processNextChunk (JSON_parse_table []) "2024-05-01" "e@x.org" 3)
       example_store).1.2 !! progress_key "2024-05-02" "e@x.org"
    = example_store !! progress_key "2024-05-02" "e@x.org".
Proof.
  assert (occurs ":"%char "2024-05-01" = false) as H1 by reflexivity.
  assert (occurs ":"%char "2024-05-02" = false) as H2 by reflexivity.
  assert ("2024-05-01" ≠ "2024-05-02" ∨ "e@x.org" ≠ "e@x.org") as H3
    by (left; discriminate).
  assert (key_of_job "2024-05-02" "e@x.org" (progress_key "2024-05-02" "e@x.org"))
    as H4 by (right; by left).
  split; [exact H1|]. split; [exact H2|]. split; [exact H3|]. split; [exact H4|].
  exact (processNextChunk_other_job (JSON_parse_table []) groq_down
           "2024-05-01" "e@x.org" 3 example_store "2024-05-02" "e@x.org" _
           H1 H2 H3 H4).
Defined.

Lemma finalizeDailyReport_aggregates_stored_witness :
  (0 < length [spec_report_1; example_report; neutral_report])%nat
  ∧ (∀ (j : nat) report,
       [spec_report_1; example_report; neutral_report] !! j = Some report →
       example_store_reports !! chunk_key "2024-05-01" "e@x.org" (Num (Z.of_nat j))
       = Some (VReport report))
  ∧ truthy (example_store_reports
              !! chunk_key "2024-05-01" "e@x.org"
                   (Num (Z.of_nat (length [spec_report_1; example_report;
                                           neutral_report])))) = false
  ∧ (length [spec_report_1; example_report; neutral_report] < 4)%nat
  ∧ (run groq_down (finalizeDailyReport http_URL 4 "2024-05-01" "e@x.org")
       example_store_reports).1.1
    = Returned (aggregateReports http_URL
                  [spec_report_1; example_report; neutral_report]).
Proof.
  assert (0 < length [spec_report_1; example_report; neutral_report])%nat as H1
    by (simpl; lia).
  assert (∀ (j : nat) report,
            [spec_report_1; example_report; neutral_report] !! j = Some report →
            example_store_reports !! chunk_key "2024-05-01" "e@x.org" (Num (Z.of_nat j))
            = Some (VReport report)) as H2.
  { intros [|[|[|j]]] report Hj; simpl in Hj; try discriminate Hj;
      injection Hj as <-; vm_compute; reflexivity. }
  assert (truthy (example_store_reports
                    !! chunk_key "2024-05-01" "e@x.org"
                         (Num (Z.of_nat (length [spec_report_1; example_report;
                                                 neutral_report])))) = false) as H3
    by (vm_compute; reflexivity).
  assert (length [spec_report_1; example_report; neutral_report] < 4)%nat as H4
    by (simpl; lia).
  split; [exact H1|]. split; [exact H2|]. split; [exact H3|]. split; [exact H4|].
  exact (f_equal (λ r, r.1.1)
           (finalizeDailyReport_aggregates_stored http_URL groq_down
              "2024-05-01" "e@x.org" example_store_reports
              [spec_report_1; example_report; neutral_report] 4 H1 H2 H3 H4)).
Defined.

Lemma finalizeDailyReport_getDailyReport_witness :
  (0 < length [spec_report_1; example_report; neutral_report])%nat
  ∧ (∀ (j : nat) report,
       [spec_report_1; example_report; neutral_report] !! j = Some report →
       example_store_reports !! chunk_key "2024-05-01" "e@x.org" (Num (Z.of_nat j))
       = Some (VReport report))
  ∧ truthy (example_store_reports
              !! chunk_key "2024-05-01" "e@x.org"
                   (Num (Z.of_nat (length [spec_report_1; example_report;
                                           neutral_report])))) = false
  ∧ (length [spec_report_1; example_report; neutral_report] < 4)%nat
  ∧ ∃ report,
      (run groq_down (finalizeDailyReport http_URL 4 "2024-05-01" "e@x.org")
         example_store_reports).1.1 = Returned report
      ∧ run groq_down (getDailyReport "2024-05-01" "e@x.org")
          (run groq_down (finalizeDailyReport http_URL 4 "2024-05-01" "e@x.org")
             example_store_reports).1.2
        = (Returned (VReport report),
           (run groq_down (finalizeDailyReport http_URL 4 "2024-05-01" "e@x.org")
              example_store_reports).1.2,
           [EvGet (report_key "2024-05-01" "e@x.org")]).
Proof.
  assert (0 < length [spec_report_1; example_report; neutral_report])%nat as H1
    by (simpl; lia).
  assert (∀ (j : nat) report,
            [spec_report_1; example_report; neutral_report] !! j = Some report →
            example_store_reports !! chunk_key "2024-05-01" "e@x.org" (Num (Z.of_nat j))
            = Some (VReport report)) as H2.
  { intros [|[|[|j]]] report Hj; simpl in Hj; try discriminate Hj;
      injection Hj as <-; vm_compute; reflexivity. }
  assert (truthy (example_store_reports
                    !! chunk_key "2024-05-01" "e@x.org"
                         (Num (Z.of_nat (length [spec_report_1; example_report;
                                                 neutral_report])))) = false) as H3
    by (vm_compute; reflexivity).
  assert (length [spec_report_1; example_report; neutral_report] < 4)%nat as H4
    by (simpl; lia).
  split; [exact H1|]. split; [exact H2|]. split; [exact H3|]. split; [exact H4|].
  exact (finalizeDailyReport_getDailyReport http_URL groq_down
           "2024-05-01" "e@x.org" example_store_reports
           [spec_report_1; example_report; neutral_report] 4 H1 H2 H3 H4).
Defined.

Lemma finalizeDailyReport_empty_not_found_witness :
  truthy (example_store !! chunk_key "2024-05-01" "e@x.org" (Num 0)) = false
  ∧ truthy (example_store !! report_key "2024-05-01" "e@x.org") = false
  ∧ (run groq_down (finalizeDailyReport http_URL 1 "2024-05-01" "e@x.org")
       example_store).1.1 = Returned neutral_report.
Proof.
  assert (truthy (example_store !! chunk_key "2024-05-01" "e@x.org" (Num 0)) = false)
    as H1 by (vm_compute; reflexivity).
  assert (truthy (example_store !! report_key "2024-05-01" "e@x.org") = false)
    as H2 by (vm_compute; reflexivity).
  split; [exact H1|]. split; [exact H2|].
  exact (proj1 (finalizeDailyReport_empty_not_found http_URL groq_down
                  "2024-05-01" "e@x.org" example_store 0 H1 H2)).
Defined.

Lemma finalizeDailyReport_breaks_witness :
  example_store_empty_object !! chunk_key "2024-05-01" "e@x.org" (Num 0)
    = Some (VObject [])
  ∧ existsb breaks_aggregation [VObject []] = true
  ∧ (run groq_down (finalizeDailyReport http_URL 2 "2024-05-01" "e@x.org")
       example_store_empty_object).1.1
    = Thrown TypeError.
Proof.
  assert (∀ (j : nat) doc,
            [VObject []] !! j = Some doc →
            example_store_empty_object
              !! chunk_key "2024-05-01" "e@x.org" (Num (Z.of_nat j)) = Some doc
            ∧ truthy (Some doc) = true) as H1.
  { intros [|j] doc Hj; [|done]. injection Hj as <-.
    split; vm_compute; reflexivity. }
  assert (truthy (example_store_empty_object
                    !! chunk_key "2024-05-01" "e@x.org"
                         (Num (Z.of_nat (length [VObject []])))) = false) as H2
    by (vm_compute; reflexivity).
  assert (length [VObject []] < 2)%nat as H3 by (cbn; lia).
  assert (existsb breaks_aggregation [VObject []] = true) as H4 by reflexivity.
  split; [exact (proj1 (H1 0%nat (VObject []) eq_refl))|]. split; [exact H4|].
  exact (f_equal (λ r, r.1.1)
           (finalizeDailyReport_breaks http_URL groq_down "2024-05-01" "e@x.org"
              example_store_empty_object [VObject []] 2 H1 H2 H3 H4)).
Defined.

(** ** A progress entry that is no number *)

(** X18: when the stored progress does not read as a number (it is [NaN]
    for [parseInt]), the job never completes: for every chunk size the call
    classifies the empty chunk, stores its report under the index text
    [NaN], writes the progress [NaN] and returns [{completed: false}], and
    the progress is as unreadable after the call as before. *)
Theorem processNextChunk_unreadable_progress
    (JSON_parse : string → option value) (groq : string → groq_result)
    (date email : string) (chunkSize : Z) (σ : gmap string value)
    (account : Account) (items : list (option HistoryItem.t)) :
  σ !! history_key date email = Some (VHistory (Some account) (Some items)) →
  progress_of (σ !! progress_key date email) = NaN →
  let report := reply_report JSON_parse (groq (chunk_prompt [])) in
  let called := run groq (processNextChunk JSON_parse date email chunkSize) σ in
  called
  = (Returned {| completed := false |},
     <[progress_key date email := VString "NaN"]>
       (<[chunk_key date email NaN := report]> σ),
     [EvGet (history_key date email); EvGet (progress_key date email);
      EvGroq (chunk_prompt []);
      EvSet (chunk_key date email NaN) report;
      EvSet (progress_key date email) (VString "NaN")])
  ∧ progress_of (called.1.2 !! progress_key date email) = NaN.
Proof.
  intros Hhistory Hindex report called.
  pose proof (processNextChunk_run_advance_any JSON_parse groq date email chunkSize
                σ account items [] Hhistory) as Hrun.
  cbv zeta in Hrun. rewrite Hindex in Hrun.
  specialize (Hrun eq_refl eq_refl). fold report called in Hrun.
  split; [exact Hrun|]. rewrite Hrun. cbn [fst snd].
  by rewrite lookup_insert_eq.
Qed.

(** What [parseInt] makes of some texts: white space in front is skipped,
    also a no-break space (U+00A0) and a byte order mark (U+FEFF); what
    follows the digits is ignored; a text without a digit in front is no
    number. *)
Example parseInt_examples :
  parseInt (String "194" (String "160" "7")) = Num 7
  ∧ parseInt (String "239" (String "187" (String "191" "12"))) = Num 12
  ∧ parseInt "  42px" = Num 42
  ∧ parseInt "-3" = Num (-3)
  ∧ parseInt "soon" = NaN
  ∧ parseInt "" = NaN.
Proof. vm_compute. repeat split. Qed.

Lemma processNextChunk_unreadable_progress_witness :
  example_store_corrupt !! history_key "2024-05-01" "e@x.org"
    = Some (VHistory (Some example_account) (Some (Some <$> example_history)))
  ∧ progress_of (example_store_corrupt !! progress_key "2024-05-01" "e@x.org") = NaN
  ∧ progress_of
      ((run groq_down (processNextChunk (JSON_parse_table []) "2024-05-01" "e@x.org" 3)
          example_store_corrupt).1.2 !! progress_key "2024-05-01" "e@x.org") = NaN.
Proof.
  assert (example_store_corrupt !! history_key "2024-05-01" "e@x.org"
          = Some (VHistory (Some example_account) (Some (Some <$> example_history)))) as H1
    by (vm_compute; reflexivity).
  assert (progress_of (example_store_corrupt !! progress_key "2024-05-01" "e@x.org")
          = NaN) as H2 by (vm_compute; reflexivity).
  split; [exact H1|]. split; [exact H2|].
  exact (proj2 (processNextChunk_unreadable_progress (JSON_parse_table []) groq_down
                  "2024-05-01" "e@x.org" 3 example_store_corrupt
                  example_account (Some <$> example_history) H1 H2)).
Defined.

(** ** Storing a history *)

(** X19: [storeHistoryWithAccount] writes the history of the job and nothing
    else: the progress, the chunk reports and the daily report of every job,
    the job of the stored history included, are what they were, so a job
    that is under way keeps its progress index when its history is stored
    again. *)
Theorem storeHistoryWithAccount_keeps_job
    (groq : string → groq_result) (date : string) (account : Account)
    (data : list (option HistoryItem.t)) (σ : gmap string value) :
  let σ' := (run groq (storeHistoryWithAccount date account data) σ).1.2 in
  σ' !! history_key date (email account) = Some (VHistory (Some account) (Some data))
  ∧ ∀ date' email',
      progress_of (σ' !! progress_key date' email')
      = progress_of (σ !! progress_key date' email')
      ∧ σ' !! report_key date' email' = σ !! report_key date' email'
      ∧ ∀ index,
          σ' !! chunk_key date' email' index = σ !! chunk_key date' email' index.
Proof.
  intros σ'. subst σ'. unfold storeHistoryWithAccount, redisService.set.
  cbn [run fst snd]. split; [apply lookup_insert_eq|].
  intros date' email'. split; [|split; [|intros index]].
  - by rewrite lookup_insert_ne
      by (apply not_eq_sym, progress_key_ne_history_key).
  - by rewrite lookup_insert_ne by apply history_key_ne_report_key.
  - by rewrite lookup_insert_ne by (apply not_eq_sym, chunk_key_ne_history_key).
Qed.

(** ** Prose around the JSON text *)

Lemma after_first_lbrace_app pre rest :
  occurs "{"%char pre = false →
  after_first_lbrace (pre +:+ String "{"%char rest) = Some rest.
Proof.
  induction pre as [|c pre IH]; intros Hpre.
  - cbn. done.
  - apply occurs_cons_false in Hpre as [Hc Hpre].
    change (after_first_lbrace (String c (pre +:+ String "{"%char rest)) = Some rest).
    cbn [after_first_lbrace].
    destruct (Ascii.eqb_spec c "{"%char) as [->|_]; [done|]. by apply IH.
Qed.

Lemma upto_last_rbrace_none post :
  occurs "}"%char post = false → upto_last_rbrace post = None.
Proof.
  induction post as [|c post IH]; [done|]. intros Hpost.
  apply occurs_cons_false in Hpost as [Hc Hpost].
  cbn [upto_last_rbrace]. rewrite IH by done.
  by destruct (Ascii.eqb_spec c "}"%char).
Qed.

Lemma upto_last_rbrace_app inner post :
  occurs "}"%char post = false →
  upto_last_rbrace (inner +:+ String "}"%char post)
  = Some (inner +:+ String "}"%char EmptyString).
Proof.
  intros Hpost. induction inner as [|c inner IH].
  - change (upto_last_rbrace (String "}"%char post) = Some (String "}"%char EmptyString)).
    cbn [upto_last_rbrace]. by rewrite upto_last_rbrace_none.
  - change (upto_last_rbrace (String c (inner +:+ String "}"%char post))
            = Some (String c (inner +:+ String "}"%char EmptyString))).
    cbn [upto_last_rbrace]. by rewrite IH.
Qed.

Lemma match_braces_app pre inner post :
  occurs "{"%char pre = false → occurs "}"%char post = false →
  match_braces (pre +:+ "{" +:+ inner +:+ "}" +:+ post)
  = Some ("{" +:+ inner +:+ "}").
Proof.
  intros Hpre Hpost. unfold match_braces.
  change (pre +:+ "{" +:+ inner +:+ "}" +:+ post)
    with (pre +:+ String "{"%char (inner +:+ String "}"%char post)).
  rewrite after_first_lbrace_app by done.
  by rewrite upto_last_rbrace_app by done.
Qed.

(** X20: prose around the JSON text of a reply is tolerated as long as the
    prose in front holds no opening brace and the prose behind holds no
    closing brace: [analyzeChunk] then returns what [JSON.parse] makes of
    the text between the braces, braces included. *)
Theorem analyzeChunk_tolerates_prose
    (JSON_parse : string → option value) (groq : string → groq_result)
    (chunk : list HistoryItem.t) (σ : gmap string value)
    (completion : ChatCompletion) (pre inner post : string) (report : value) :
  groq (chunk_prompt chunk) = Resolved completion →
  response_content completion = pre +:+ "{" +:+ inner +:+ "}" +:+ post →
  occurs "{"%char pre = false →
  occurs "}"%char post = false →
  JSON_parse ("{" +:+ inner +:+ "}") = Some report →
  run groq (analyzeChunk JSON_parse (Some <$> chunk)) σ
  = (Returned report, σ, [EvGroq (chunk_prompt chunk)]).
Proof.
  intros Hreply Hcontent Hpre Hpost Hparse.
  rewrite analyzeChunk_run. unfold reply_report.
  by rewrite Hreply, Hcontent, match_braces_app, Hparse.
Qed.

Lemma analyzeChunk_tolerates_prose_witness :
  groq_says example_response_plain (chunk_prompt example_history)
    = Resolved {| choices := [Some example_response_plain] |}
  ∧ response_content {| choices := [Some example_response_plain] |}
    = "Here is the report: " +:+ "{" +:+ example_report_body +:+ "}"
      +:+ " I hope it helps."
  ∧ occurs "{"%char "Here is the report: " = false
  ∧ occurs "}"%char " I hope it helps." = false
  ∧ JSON_parse_table [(example_report_JSON, example_report)]
      ("{" +:+ example_report_body +:+ "}") = Some (VReport example_report)
  ∧ run (groq_says example_response_plain)
      (analyzeChunk (JSON_parse_table [(example_report_JSON, example_report)])
         (Some <$> example_history)) ∅
    = (Returned (VReport example_report), ∅, [EvGroq (chunk_prompt example_history)]).
Proof.
  assert (groq_says example_response_plain (chunk_prompt example_history)
          = Resolved {| choices := [Some example_response_plain] |}) as H1
    by reflexivity.
  assert (response_content {| choices := [Some example_response_plain] |}
          = "Here is the report: " +:+ "{" +:+ example_report_body +:+ "}"
            +:+ " I hope it helps.") as H2 by (vm_compute; reflexivity).
  assert (occurs "{"%char "Here is the report: " = false) as H3 by reflexivity.
  assert (occurs "}"%char " I hope it helps." = false) as H4 by reflexivity.
  assert (JSON_parse_table [(example_report_JSON, example_report)]
            ("{" +:+ example_report_body +:+ "}") = Some (VReport example_report)) as H5
    by (vm_compute; reflexivity).
  split; [exact H1|]. split; [exact H2|]. split; [exact H3|]. split; [exact H4|].
  split; [exact H5|].
  exact (analyzeChunk_tolerates_prose
           (JSON_parse_table [(example_report_JSON, example_report)])
           (groq_says example_response_plain) example_history ∅
           {| choices := [Some example_response_plain] |}
           "Here is the report: " example_report_body " I hope it helps."
           (VReport example_report) H1 H2 H3 H4 H5).
Defined.

(** ** The controller *)

Lemma run_bind_Ret {A B} groq (p : prog A) (f : A → B) σ :
  run groq (p ≫= λ result, Ret (f result)) σ
  = (outcome_map f (run groq p σ).1.1, (run groq p σ).1.2, (run groq p σ).2).
Proof.
  rewrite run_bind. destruct (run groq p σ) as [[[a|e| |] σ'] tr]; cbn; [|done..].
  by rewrite app_nil_r.
Qed.

Lemma run_calls_bind_Ret {A B} groqs (p : prog A) (f : A → B) σ :
  run_calls groqs (p ≫= λ result, Ret (f result)) σ
  = (outcome_map f <$> (run_calls groqs p σ).1, (run_calls groqs p σ).2).
Proof.
  revert σ. induction groqs as [|groq groqs IH]; intros σ; [done|].
  cbn [run_calls]. rewrite run_bind_Ret.
  destruct (run groq p σ) as [[o σ'] tr]. cbn [fst snd]. rewrite IH.
  by destruct (run_calls groqs p σ') as [os σ''].
Qed.

Section controller_properties.
Variable JSON_parse : string → option value.
Variable new_URL : string → option URL.
Variable groq : string → groq_result.

Lemma processChunk_unfold date email chunkSize :
  BrowserHistoryController.processChunk JSON_parse date email chunkSize
  = (processNextChunk JSON_parse date email chunkSize
     ≫= λ result, Ret (chunk_response result)).
Proof. reflexivity. Qed.

(** [processChunk] does what [processNextChunk] does, with the same
    effects on the store and the same error when it fails, and hands the
    result on with its message: [All chunks processed] exactly when the
    service returned [{completed: true}], [Chunk processed successfully]
    when it returned [{completed: false}]. *)
Theorem processChunk_run (date email : string) (chunkSize : Z)
    (σ : gmap string value) :
  let served := run groq (processNextChunk JSON_parse date email chunkSize) σ in
  let answered :=
    run groq (BrowserHistoryController.processChunk JSON_parse date email chunkSize) σ in
  answered.1.2 = served.1.2
  ∧ answered.2 = served.2
  ∧ match served.1.1 with
    | Returned {| completed := true |} =>
        answered.1.1
        = Returned {| BrowserHistoryController.chunk_message := "All chunks processed";
                      BrowserHistoryController.chunk_completed := true |}
    | Returned {| completed := false |} =>
        answered.1.1
        = Returned {| BrowserHistoryController.chunk_message :=
                        "Chunk processed successfully";
                      BrowserHistoryController.chunk_completed := false |}
    | Thrown e => answered.1.1 = Thrown e
    | Cut => answered.1.1 = Cut
    | Unmodelled => answered.1.1 = Unmodelled
    end.
Proof.
  intros served answered. subst served answered.
  rewrite processChunk_unfold, run_bind_Ret.
  cbn [fst snd]. split; [done|]. split; [done|].
  by destruct (run groq (processNextChunk JSON_parse date email chunkSize) σ)
    as [[[[[|]]|e| |] σ'] tr].
Qed.

(** X21: a whole job through the controller.  For a history of objects
    that makes [n + 1] chunks, a job without progress and without a report
    at index [n + 1], and a classifier whose replies make reports of the
    chunks (the neutral one where a reply fails): [storeHistory]
    acknowledges, each of [n + 1] calls of [processChunk] answers that a
    chunk was processed, the next one that all chunks are processed,
    [finalizeReport] returns the aggregate of the [n + 1] reports, and
    [getDailyReport] returns that same report. *)
Theorem controller_job
    (date : string) (account : Account) (data : list HistoryItem.t)
    (chunkSize : Z) (σ : gmap string value) (n : nat)
    (reports : list DailyReport) :
  chunk_reports JSON_parse groq data chunkSize (S n) = VReport <$> reports →
  Math_ceil_div (Z.of_nat (length data)) chunkSize = Num (Z.of_nat (S n)) →
  progress_of (σ !! progress_key date (email account)) = Num 0 →
  truthy (σ !! chunk_key date (email account) (Num (Z.of_nat (S n)))) = false →
  let stored := run groq (BrowserHistoryController.storeHistory date account (Some <$> data)) σ in
  let processed :=
    run_calls (replicate (S n) groq)
      (BrowserHistoryController.processChunk JSON_parse date (email account) chunkSize)
      stored.1.2 in
  let last_call :=
    run groq
      (BrowserHistoryController.processChunk JSON_parse date (email account) chunkSize)
      processed.2 in
  let finalized :=
    run groq
      (BrowserHistoryController.finalizeReport new_URL (S (S n)) date (email account))
      last_call.1.2 in
  let fetched :=
    run groq (BrowserHistoryController.getDailyReport date (email account))
      finalized.1.2 in
  let daily := aggregateReports new_URL reports in
  stored.1.1
  = Returned {| BrowserHistoryController.message :=
                  "History and account stored successfully" |}
  ∧ processed.1
    = replicate (S n)
        (Returned {| BrowserHistoryController.chunk_message :=
                       "Chunk processed successfully";
                     BrowserHistoryController.chunk_completed := false |})
  ∧ last_call.1.1
    = Returned {| BrowserHistoryController.chunk_message := "All chunks processed";
                  BrowserHistoryController.chunk_completed := true |}
  ∧ finalized.1.1 = Returned daily
  ∧ fetched.1.1 = Returned (VReport daily).
Proof.
  intros Hreports Htotal Hindex Hgap stored processed last_call finalized fetched daily.
  assert (length reports = S n) as Hlen.
  { apply (f_equal length) in Hreports. unfold chunk_reports in Hreports.
    by rewrite !length_fmap, length_seq in Hreports. }
  set (address := email account) in *.
  set (σ1 := <[history_key date address := VHistory (Some account) (Some (Some <$> data))]> σ).
  assert (stored
          = (Returned {| BrowserHistoryController.message :=
                           "History and account stored successfully" |},
             σ1, [EvSet (history_key date address)
                    (VHistory (Some account) (Some (Some <$> data)))])) as Hstored by done.
  assert (σ1 !! history_key date address = Some (VHistory (Some account) (Some (Some <$> data))))
    as Hhistory by apply lookup_insert_eq.
  assert (progress_of (σ1 !! progress_key date address) = Num 0) as Hindex1.
  { subst σ1. by rewrite lookup_insert_ne
      by (apply not_eq_sym, progress_key_ne_history_key). }
  destruct (run_calls_advance JSON_parse date address chunkSize account data _
              (replicate (S n) groq) σ1 0 Hhistory Htotal Hindex1)
    as (Hout & Hprog & Hchunks & Hframe).
  { rewrite length_replicate. lia. }
  rewrite length_replicate in Hout, Hprog, Hframe.
  set (calls := run_calls (replicate (S n) groq)
                  (processNextChunk JSON_parse date address chunkSize) σ1) in *.
  assert (processed
          = (outcome_map chunk_response <$> calls.1, calls.2)) as Hprocessed.
  { subst processed. rewrite Hstored. cbn [fst snd].
    rewrite processChunk_unfold. apply run_calls_bind_Ret. }
  assert (calls.2 !! history_key date address
          = Some (VHistory (Some account) (Some (Some <$> data)))) as Hhistory2.
  { rewrite Hframe; [done|apply not_eq_sym, progress_key_ne_history_key|].
    intros j _. apply not_eq_sym, chunk_key_ne_history_key. }
  assert (last_call
          = (Returned {| BrowserHistoryController.chunk_message := "All chunks processed";
                         BrowserHistoryController.chunk_completed := true |},
             calls.2,
             [EvGet (history_key date address); EvGet (progress_key date address)]))
    as Hlast.
  { subst last_call. rewrite Hprocessed. cbn [fst snd].
    rewrite processChunk_unfold, run_bind_Ret.
    rewrite (processNextChunk_run_completed JSON_parse groq date address chunkSize
               calls.2 account data Hhistory2); [done|].
    rewrite Hprog, Htotal. cbn [num_ge]. apply bool_decide_eq_true. lia. }
  assert (finalized
          = (Returned daily, <[report_key date address := VReport daily]> calls.2,
             ((λ j : nat, EvGet (chunk_key date address (Num (Z.of_nat j))))
                <$> seq 0 (S (length reports)))
             ++ [EvSet (report_key date address) (VReport daily)])) as Hfinalized.
  { subst finalized. rewrite Hlast. cbn [fst snd].
    unfold BrowserHistoryController.finalizeReport.
    rewrite (run_bind_Ret groq (finalizeDailyReport new_URL (S (S n)) date address) id).
    rewrite (finalizeDailyReport_run new_URL groq date address calls.2
               reports (S (S n))); [done|..].
    - lia.
    - intros j report Hj.
      assert (chunk_reports JSON_parse groq data chunkSize (S n) !! j
              = Some (VReport report)) as Hdoc
        by (by rewrite Hreports, list_lookup_fmap, Hj).
      unfold chunk_reports in Hdoc.
      apply list_lookup_fmap_Some in Hdoc as (i & Hreply & Hi).
      apply lookup_seq in Hi as [-> Hlt]. cbn [Nat.add] in Hreply.
      specialize (Hchunks j groq (lookup_replicate_2 _ _ _ Hlt)).
      rewrite Z.add_0_l in Hchunks. by rewrite Hchunks, Hreply.
    - rewrite Hlen.
      rewrite Hframe; [| apply chunk_key_ne_progress_key |].
      + subst σ1. by rewrite lookup_insert_ne
          by (apply not_eq_sym, chunk_key_ne_history_key).
      + intros j Hj Heq. apply chunk_key_inj in Heq. lia.
    - lia. }
  split; [by rewrite Hstored|].
  split.
  { rewrite Hprocessed. cbn [fst]. rewrite Hout.
    by rewrite fmap_replicate. }
  split; [by rewrite Hlast|].
  split; [by rewrite Hfinalized|].
  subst fetched. rewrite Hfinalized. cbn [fst snd].
  unfold BrowserHistoryController.getDailyReport.
  rewrite (run_bind_Ret groq (getDailyReport date address) id).
  by rewrite (getDailyReport_run_stored groq date address _ daily)
    by apply lookup_insert_eq.
Qed.
End controller_properties.

Lemma controller_job_witness :
  chunk_reports (JSON_parse_table []) groq_down example_history 3 3
    = VReport <$> replicate 3 neutral_report
  ∧ Math_ceil_div (Z.of_nat (length example_history)) 3 = Num (Z.of_nat 3)
  ∧ progress_of ((∅ : gmap string value) !! progress_key "2024-05-01" (email example_account)) = Num 0
  ∧ truthy ((∅ : gmap string value) !! chunk_key "2024-05-01" (email example_account) (Num (Z.of_nat 3)))
    = false
  ∧ (run groq_down (BrowserHistoryController.storeHistory "2024-05-01"
                      example_account (Some <$> example_history)) ∅).1.1
    = Returned {| BrowserHistoryController.message :=
                    "History and account stored successfully" |}.
Proof.
  assert (Math_ceil_div (Z.of_nat (length example_history)) 3 = Num (Z.of_nat 3))
    as H1 by (vm_compute; reflexivity).
  assert (progress_of ((∅ : gmap string value) !! progress_key "2024-05-01" (email example_account)) = Num 0)
    as H2 by reflexivity.
  assert (truthy ((∅ : gmap string value) !! chunk_key "2024-05-01" (email example_account)
                        (Num (Z.of_nat 3))) = false) as H3 by reflexivity.
  assert (chunk_reports (JSON_parse_table []) groq_down example_history 3 3
          = VReport <$> replicate 3 neutral_report) as H0 by reflexivity.
  split; [exact H0|]. split; [exact H1|]. split; [exact H2|]. split; [exact H3|].
  exact (proj1 (controller_job (JSON_parse_table []) http_URL groq_down
                  "2024-05-01" example_account example_history 3 ∅ 2
                  (replicate 3 neutral_report) H0 H1 H2 H3)).
Defined.
